(** * TouchControllerFake: single-finger mouse emulation

    Shallow embedding of
    [src/Frontend/library/src/Inputs/TouchControllerFake.ts].

    JavaScript numbers are IEEE 754 binary64 values, so coordinates are
    primitive floats and [-] on them is [PrimFloat.sub].  A touch
    identifier is a WebIDL [long]; it is an integer here and [===] on
    identifiers is [Z.eqb].  A field that the class declares without
    initialising ([fakeTouchFinger], [videoElementParentClientRect]) is an
    [option]: [None] is JavaScript's [undefined]/[null].  Reading a member
    of [undefined] raises a [TypeError], which the handlers' monad carries
    as an abrupt completion. *)

From Stdlib Require Import ZArith List Bool Lia.
From Stdlib Require Import Floats.PrimFloat.
Import ListNotations.

Local Open Scope Z_scope.

(** ** DOM values *)

(** A DOM node, compared by identity ([!==] on object references). *)
Inductive Element : Type :=
| DomNode (handle : N).

Definition Element_eqb (a b : Element) : bool :=
  match a, b with
  | DomNode m, DomNode n => N.eqb m n
  end.

(** [a === b] for an event target (which may be [null]) and a node. *)
Definition target_strictEq (a : option Element) (b : Element) : bool :=
  match a with
  | Some n => Element_eqb n b
  | None => false
  end.

Module Touch.
Record t : Type := mk
  { identifier : Z;
    clientX : float;
    clientY : float }.
End Touch.

Module TouchEvent.
Record t : Type := mk
  { target : option Element;
    changedTouches : list Touch.t;
    touches : list Touch.t }.
End TouchEvent.

(** The two members of a [DOMRect] that the class reads. *)
Module DOMRect.
Record t : Type := mk
  { left : float;
    top : float }.
End DOMRect.

(** ** The class's own data *)

Module FakeTouchFinger.
Record t : Type := mk
  { id : Z;
    x : float;
    y : float }.
End FakeTouchFinger.

(** What a [normalizeAndQuantize*] call returns, as far as it is read. *)
Module Coord.
Record t : Type := mk
  { x : float;
    y : float }.
End Coord.

(** The collaborators are declared in files outside [src]; each is the
    record of the members this class calls. *)
Record VideoPlayer : Type := mkVideoPlayer
  { isVideoReady : bool;
    getVideoElement : Element;
    getVideoParentElement : Element }.

Record CoordinateConverter : Type := mkCoordinateConverter
  { normalizeAndQuantizeUnsigned : float -> float -> Coord.t;
    normalizeAndQuantizeSigned : float -> float -> Coord.t }.

Record TouchControllerFake : Type := mkTouchControllerFake
  { fakeTouchFinger : option FakeTouchFinger.t;
    videoPlayer : VideoPlayer;
    coordinateConverter : CoordinateConverter;
    videoElementParentClientRect : option DOMRect.t }.

(** [new TouchControllerFake(streamMessageController, videoPlayer,
    coordinateConverter)]: the two remaining fields stay undefined. *)
Definition constructor (vp : VideoPlayer) (cc : CoordinateConverter)
  : TouchControllerFake :=
  {| fakeTouchFinger := None;
     videoPlayer := vp;
     coordinateConverter := cc;
     videoElementParentClientRect := None |}.

(** [this.fakeTouchFinger = f], the other fields untouched. *)
Definition with_fakeTouchFinger (f : option FakeTouchFinger.t)
  (this : TouchControllerFake) : TouchControllerFake :=
  {| fakeTouchFinger := f;
     videoPlayer := videoPlayer this;
     coordinateConverter := coordinateConverter this;
     videoElementParentClientRect := videoElementParentClientRect this |}.

(** [this.videoElementParentClientRect = rect], the other fields untouched. *)
Definition with_rect (rect : DOMRect.t)
  (this : TouchControllerFake) : TouchControllerFake :=
  {| fakeTouchFinger := fakeTouchFinger this;
     videoPlayer := videoPlayer this;
     coordinateConverter := coordinateConverter this;
     videoElementParentClientRect := Some rect |}.

(** [identifier === id] on a touch, the test of both [for] loops. *)
Definition matching (id : Z) (t : Touch.t) : bool :=
  Touch.identifier t =? id.

(** ** Observable effects *)

(** The keys looked up in [streamMessageController.toStreamerHandlers]. *)
Inductive MessageName : Type :=
| MouseDown
| MouseUp
| MouseMove.

Inductive MouseEventType : Type :=
| mouseenter
| mouseleave.

(** [SendMessage n p] is [toStreamerHandlers.get(n)(p)];
    [DispatchEvent el ty init] is [el.dispatchEvent(new MouseEvent(ty, init))];
    [PreventDefault] is [event.preventDefault()] on the handled event. *)
Inductive Effect : Type :=
| SendMessage (name : MessageName) (payload : list float)
| DispatchEvent (on : Element) (type : MouseEventType) (init : Touch.t)
| PreventDefault.

Definition isSendMessage (e : Effect) : bool :=
  match e with
  | SendMessage _ _ => true
  | _ => false
  end.

Definition isPreventDefault (e : Effect) : bool :=
  match e with
  | PreventDefault => true
  | _ => false
  end.

Definition messages (log : list Effect) : list Effect :=
  filter isSendMessage log.

Definition suppressions (log : list Effect) : nat :=
  length (filter isPreventDefault log).

(** ** The handlers' monad: state of [this], effect log, abrupt completion *)

Inductive TypeError : Type :=
| ReadOfUndefinedTouch   (* [first_touch.identifier] with [changedTouches[0]] undefined *)
| ReadOfUndefinedRect.   (* [this.videoElementParentClientRect.left] with the field unset *)

Inductive Completion (A : Type) : Type :=
| Normal (a : A)
| Throw (e : TypeError).

Arguments Normal {A} a.
Arguments Throw {A} e.

Record Outcome (A : Type) : Type := mkOutcome
  { completion : Completion A;
    this_after : TouchControllerFake;
    effects : list Effect }.

Arguments mkOutcome {A} _ _ _.
Arguments completion {A} _.
Arguments this_after {A} _.
Arguments effects {A} _.

Definition M (A : Type) : Type := TouchControllerFake -> Outcome A.

(** The outcome of a handler that returns at once: [this] as it was,
    nothing sent, nothing dispatched, default behaviour not suppressed. *)
Definition ignored (this : TouchControllerFake) : Outcome unit :=
  mkOutcome (Normal tt) this [].

Definition ret {A : Type} (a : A) : M A :=
  fun this => mkOutcome (Normal a) this [].

Definition bind {A B : Type} (m : M A) (k : A -> M B) : M B :=
  fun this =>
    let o := m this in
    match completion o with
    | Normal a =>
        let o' := k a (this_after o) in
        mkOutcome (completion o') (this_after o') (effects o ++ effects o')
    | Throw e => mkOutcome (Throw e) (this_after o) (effects o)
    end.

Notation "x <- m ;; k" := (bind m (fun x => k))
  (at level 61, m at next level, right associativity).
Notation "m ;; k" := (bind m (fun _ => k))
  (at level 61, right associativity).

Definition throw {A : Type} (e : TypeError) : M A :=
  fun this => mkOutcome (Throw e) this [].

Definition read_this : M TouchControllerFake :=
  fun this => mkOutcome (Normal this) this [].

Definition assign_fakeTouchFinger (f : option FakeTouchFinger.t) : M unit :=
  fun this => mkOutcome (Normal tt) (with_fakeTouchFinger f this) [].

Definition perform (e : Effect) : M unit :=
  fun this => mkOutcome (Normal tt) this [e].

(** Member access on a touch taken out of a list by index. *)
Definition member_of_touch (t : option Touch.t) : M Touch.t :=
  match t with
  | Some touch => ret touch
  | None => throw ReadOfUndefinedTouch
  end.

(** Member access on [this.videoElementParentClientRect]. *)
Definition member_of_rect : M DOMRect.t :=
  this <- read_this;;
  match videoElementParentClientRect this with
  | Some rect => ret rect
  | None => throw ReadOfUndefinedRect
  end.

(** ** The class's methods *)

Definition setVideoElementParentClientRect (rect : DOMRect.t) : M unit :=
  fun this => mkOutcome (Normal tt) (with_rect rect this) [].

Section Handlers.

(** [MouseButton.mainButton], declared in [./MouseButtons]. *)
Variable mainButton : float.

Definition onTouchStart (touch : TouchEvent.t) : M unit :=
  this <- read_this;;
  if negb (isVideoReady (videoPlayer this))
     || negb (target_strictEq (TouchEvent.target touch)
                (getVideoElement (videoPlayer this)))
  then ret tt
  else
    match fakeTouchFinger this with
    | None =>
        first_touch <- member_of_touch (nth_error (TouchEvent.changedTouches touch) 0);;
        rect <- member_of_rect;;
        let finger :=
          {| FakeTouchFinger.id := Touch.identifier first_touch;
             FakeTouchFinger.x := PrimFloat.sub (Touch.clientX first_touch) (DOMRect.left rect);
             FakeTouchFinger.y := PrimFloat.sub (Touch.clientY first_touch) (DOMRect.top rect) |} in
        assign_fakeTouchFinger (Some finger);;
        perform (DispatchEvent (getVideoParentElement (videoPlayer this))
                   mouseenter first_touch);;
        let coord :=
          normalizeAndQuantizeUnsigned (coordinateConverter this)
            (FakeTouchFinger.x finger) (FakeTouchFinger.y finger) in
        perform (SendMessage MouseDown [mainButton; Coord.x coord; Coord.y coord])
    | Some _ => ret tt
    end;;
    perform PreventDefault.

(** The [for] loop of [onTouchEnd] over [changedTouches], from index [t]
    on; [finger] is [this.fakeTouchFinger], which the loop changes only
    just before its [break]. *)
Fixpoint onTouchEnd_loop (finger : FakeTouchFinger.t) (changedTouches : list Touch.t)
  : M unit :=
  match changedTouches with
  | [] => ret tt
  | touch :: later =>
      if matching (FakeTouchFinger.id finger) touch then
        this <- read_this;;
        rect <- member_of_rect;;
        let x := PrimFloat.sub (Touch.clientX touch) (DOMRect.left rect) in
        let y := PrimFloat.sub (Touch.clientY touch) (DOMRect.top rect) in
        let coord := normalizeAndQuantizeUnsigned (coordinateConverter this) x y in
        perform (SendMessage MouseUp [mainButton; Coord.x coord; Coord.y coord]);;
        perform (DispatchEvent (getVideoParentElement (videoPlayer this))
                   mouseleave touch);;
        assign_fakeTouchFinger None
      else onTouchEnd_loop finger later
  end.

Definition onTouchEnd (touchEvent : TouchEvent.t) : M unit :=
  this <- read_this;;
  if negb (isVideoReady (videoPlayer this)) then ret tt
  else
    match fakeTouchFinger this with
    | None => ret tt
    | Some finger =>
        onTouchEnd_loop finger (TouchEvent.changedTouches touchEvent);;
        perform PreventDefault
    end.

(** The [for] loop of [onTouchMove] over [touches]. *)
Fixpoint onTouchMove_loop (finger : FakeTouchFinger.t) (touches : list Touch.t)
  : M unit :=
  match touches with
  | [] => ret tt
  | touch :: later =>
      if matching (FakeTouchFinger.id finger) touch then
        this <- read_this;;
        rect <- member_of_rect;;
        let x := PrimFloat.sub (Touch.clientX touch) (DOMRect.left rect) in
        let y := PrimFloat.sub (Touch.clientY touch) (DOMRect.top rect) in
        let coord := normalizeAndQuantizeUnsigned (coordinateConverter this) x y in
        let delta :=
          normalizeAndQuantizeSigned (coordinateConverter this)
            (PrimFloat.sub x (FakeTouchFinger.x finger))
            (PrimFloat.sub y (FakeTouchFinger.y finger)) in
        perform (SendMessage MouseMove
                   [Coord.x coord; Coord.y coord; Coord.x delta; Coord.y delta]);;
        assign_fakeTouchFinger
          (Some {| FakeTouchFinger.id := FakeTouchFinger.id finger;
                   FakeTouchFinger.x := x;
                   FakeTouchFinger.y := y |})
      else onTouchMove_loop finger later
  end.

Definition onTouchMove (touchEvent : TouchEvent.t) : M unit :=
  this <- read_this;;
  if negb (isVideoReady (videoPlayer this)) then ret tt
  else
    match fakeTouchFinger this with
    | None => ret tt
    | Some finger =>
        onTouchMove_loop finger (TouchEvent.touches touchEvent);;
        perform PreventDefault
    end.

(** ** Event delivery *)

(** What can happen to a controller: a call of its public setter, one of
    the three document events it listens to, or a change of what its
    collaborators answer (readiness, elements, conversion functions). *)
Inductive Input : Type :=
| SetRect (rect : DOMRect.t)
| TouchStart (e : TouchEvent.t)
| TouchEnd (e : TouchEvent.t)
| TouchMove (e : TouchEvent.t)
| Collaborators (vp : VideoPlayer) (cc : CoordinateConverter).

Definition deliver (i : Input) : M unit :=
  match i with
  | SetRect rect => setVideoElementParentClientRect rect
  | TouchStart e => onTouchStart e
  | TouchEnd e => onTouchEnd e
  | TouchMove e => onTouchMove e
  | Collaborators vp cc =>
      fun this =>
        mkOutcome (Normal tt)
          {| fakeTouchFinger := fakeTouchFinger this;
             videoPlayer := vp;
             coordinateConverter := cc;
             videoElementParentClientRect := videoElementParentClientRect this |}
          []
  end.

(** An exception that escapes a listener is reported by the host and the
    next event is delivered to the controller as the listener left it. *)
Fixpoint run (this : TouchControllerFake) (inputs : list Input) : TouchControllerFake :=
  match inputs with
  | [] => this
  | i :: later => run (this_after (deliver i this)) later
  end.

Fixpoint outcomes (this : TouchControllerFake) (inputs : list Input)
  : list (Outcome unit) :=
  match inputs with
  | [] => []
  | i :: later =>
      let o := deliver i this in
      o :: outcomes (this_after o) later
  end.

(** The guard at the top of each handler, as a test on the controller the
    event finds. *)
Definition passesGuard (this : TouchControllerFake) (i : Input) : bool :=
  match i with
  | TouchStart e =>
      isVideoReady (videoPlayer this)
      && target_strictEq (TouchEvent.target e) (getVideoElement (videoPlayer this))
  | TouchEnd _ | TouchMove _ =>
      isVideoReady (videoPlayer this)
      && match fakeTouchFinger this with Some _ => true | None => false end
  | SetRect _ | Collaborators _ _ => false
  end.

(** No touch event of [inputs] passes its handler's guard. *)
Fixpoint allGuardedOut (this : TouchControllerFake) (inputs : list Input) : bool :=
  match inputs with
  | [] => true
  | i :: later =>
      negb (passesGuard this i)
      && allGuardedOut (this_after (deliver i this)) later
  end.

Definition throwsRectRead (o : Outcome unit) : bool :=
  match completion o with
  | Throw ReadOfUndefinedRect => true
  | _ => false
  end.

(** ** Every way a handler can end

    One constructor per path through the handler's source, with the
    conditions under which the path is taken. *)

Inductive TouchStartCase (this : TouchControllerFake) (e : TouchEvent.t)
  : Outcome unit -> Prop :=
| TouchStart_guarded :
    isVideoReady (videoPlayer this) = false
    \/ TouchEvent.target e <> Some (getVideoElement (videoPlayer this)) ->
    TouchStartCase this e (ignored this)
| TouchStart_swallowed finger :
    isVideoReady (videoPlayer this) = true ->
    TouchEvent.target e = Some (getVideoElement (videoPlayer this)) ->
    fakeTouchFinger this = Some finger ->
    TouchStartCase this e (mkOutcome (Normal tt) this [PreventDefault])
| TouchStart_no_touch :
    isVideoReady (videoPlayer this) = true ->
    TouchEvent.target e = Some (getVideoElement (videoPlayer this)) ->
    fakeTouchFinger this = None ->
    TouchEvent.changedTouches e = [] ->
    TouchStartCase this e (mkOutcome (Throw ReadOfUndefinedTouch) this [])
| TouchStart_unset_rect first others :
    isVideoReady (videoPlayer this) = true ->
    TouchEvent.target e = Some (getVideoElement (videoPlayer this)) ->
    fakeTouchFinger this = None ->
    TouchEvent.changedTouches e = first :: others ->
    videoElementParentClientRect this = None ->
    TouchStartCase this e (mkOutcome (Throw ReadOfUndefinedRect) this [])
| TouchStart_tracks first others rect :
    isVideoReady (videoPlayer this) = true ->
    TouchEvent.target e = Some (getVideoElement (videoPlayer this)) ->
    fakeTouchFinger this = None ->
    TouchEvent.changedTouches e = first :: others ->
    videoElementParentClientRect this = Some rect ->
    TouchStartCase this e
      (let localX := PrimFloat.sub (Touch.clientX first) (DOMRect.left rect) in
       let localY := PrimFloat.sub (Touch.clientY first) (DOMRect.top rect) in
       let u := normalizeAndQuantizeUnsigned (coordinateConverter this) localX localY in
       mkOutcome (Normal tt)
         (with_fakeTouchFinger
            (Some (FakeTouchFinger.mk (Touch.identifier first) localX localY)) this)
         [DispatchEvent (getVideoParentElement (videoPlayer this)) mouseenter first;
          SendMessage MouseDown [mainButton; Coord.x u; Coord.y u];
          PreventDefault]).

Inductive TouchEndCase (this : TouchControllerFake) (e : TouchEvent.t)
  : Outcome unit -> Prop :=
| TouchEnd_guarded :
    isVideoReady (videoPlayer this) = false \/ fakeTouchFinger this = None ->
    TouchEndCase this e (ignored this)
| TouchEnd_no_match finger :
    isVideoReady (videoPlayer this) = true ->
    fakeTouchFinger this = Some finger ->
    (forall t, In t (TouchEvent.changedTouches e) ->
               Touch.identifier t <> FakeTouchFinger.id finger) ->
    TouchEndCase this e (mkOutcome (Normal tt) this [PreventDefault])
| TouchEnd_unset_rect finger before t later :
    isVideoReady (videoPlayer this) = true ->
    fakeTouchFinger this = Some finger ->
    TouchEvent.changedTouches e = before ++ t :: later ->
    (forall t', In t' before -> Touch.identifier t' <> FakeTouchFinger.id finger) ->
    Touch.identifier t = FakeTouchFinger.id finger ->
    videoElementParentClientRect this = None ->
    TouchEndCase this e (mkOutcome (Throw ReadOfUndefinedRect) this [])
| TouchEnd_releases finger before t later rect :
    isVideoReady (videoPlayer this) = true ->
    fakeTouchFinger this = Some finger ->
    TouchEvent.changedTouches e = before ++ t :: later ->
    (forall t', In t' before -> Touch.identifier t' <> FakeTouchFinger.id finger) ->
    Touch.identifier t = FakeTouchFinger.id finger ->
    videoElementParentClientRect this = Some rect ->
    TouchEndCase this e
      (let u :=
         normalizeAndQuantizeUnsigned (coordinateConverter this)
           (PrimFloat.sub (Touch.clientX t) (DOMRect.left rect))
           (PrimFloat.sub (Touch.clientY t) (DOMRect.top rect)) in
       mkOutcome (Normal tt) (with_fakeTouchFinger None this)
         [SendMessage MouseUp [mainButton; Coord.x u; Coord.y u];
          DispatchEvent (getVideoParentElement (videoPlayer this)) mouseleave t;
          PreventDefault]).

Inductive TouchMoveCase (this : TouchControllerFake) (e : TouchEvent.t)
  : Outcome unit -> Prop :=
| TouchMove_guarded :
    isVideoReady (videoPlayer this) = false \/ fakeTouchFinger this = None ->
    TouchMoveCase this e (ignored this)
| TouchMove_no_match finger :
    isVideoReady (videoPlayer this) = true ->
    fakeTouchFinger this = Some finger ->
    (forall t, In t (TouchEvent.touches e) ->
               Touch.identifier t <> FakeTouchFinger.id finger) ->
    TouchMoveCase this e (mkOutcome (Normal tt) this [PreventDefault])
| TouchMove_unset_rect finger before t later :
    isVideoReady (videoPlayer this) = true ->
    fakeTouchFinger this = Some finger ->
    TouchEvent.touches e = before ++ t :: later ->
    (forall t', In t' before -> Touch.identifier t' <> FakeTouchFinger.id finger) ->
    Touch.identifier t = FakeTouchFinger.id finger ->
    videoElementParentClientRect this = None ->
    TouchMoveCase this e (mkOutcome (Throw ReadOfUndefinedRect) this [])
| TouchMove_moves finger before t later rect :
    isVideoReady (videoPlayer this) = true ->
    fakeTouchFinger this = Some finger ->
    TouchEvent.touches e = before ++ t :: later ->
    (forall t', In t' before -> Touch.identifier t' <> FakeTouchFinger.id finger) ->
    Touch.identifier t = FakeTouchFinger.id finger ->
    videoElementParentClientRect this = Some rect ->
    TouchMoveCase this e
      (let newX := PrimFloat.sub (Touch.clientX t) (DOMRect.left rect) in
       let newY := PrimFloat.sub (Touch.clientY t) (DOMRect.top rect) in
       let u := normalizeAndQuantizeUnsigned (coordinateConverter this) newX newY in
       let d :=
         normalizeAndQuantizeSigned (coordinateConverter this)
           (PrimFloat.sub newX (FakeTouchFinger.x finger))
           (PrimFloat.sub newY (FakeTouchFinger.y finger)) in
       mkOutcome (Normal tt)
         (with_fakeTouchFinger
            (Some (FakeTouchFinger.mk (FakeTouchFinger.id finger) newX newY)) this)
         [SendMessage MouseMove [Coord.x u; Coord.y u; Coord.x d; Coord.y d];
          PreventDefault]).

End Handlers.

(** ** Listener registration

    The constructor binds the three handlers once, keeps the bound
    functions in fields and registers them on [document];
    [unregisterTouchEvents] hands the same fields to
    [removeEventListener].  The document's event listener list follows the
    DOM standard: an entry is a type and a callback, [addEventListener]
    appends unless the same entry is there, [removeEventListener] takes
    the entry out, and an event is handed to the callbacks registered for
    its type in registration order. *)

Inductive EventType : Type :=
| touchstart
| touchend
| touchmove.

Definition EventType_eqb (a b : EventType) : bool :=
  match a, b with
  | touchstart, touchstart | touchend, touchend | touchmove, touchmove => true
  | _, _ => false
  end.

(** A function object, compared by identity. *)
Inductive FunctionObject : Type :=
| FunctionAt (address : N).

Definition address_of (f : FunctionObject) : N :=
  match f with FunctionAt a => a end.

Definition FunctionObject_eqb (f g : FunctionObject) : bool :=
  N.eqb (address_of f) (address_of g).

Definition sameListener (type : EventType) (callback : FunctionObject)
  (entry : EventType * FunctionObject) : bool :=
  EventType_eqb type (fst entry) && FunctionObject_eqb callback (snd entry).

Definition addEventListener (type : EventType) (callback : FunctionObject)
  (listeners : list (EventType * FunctionObject))
  : list (EventType * FunctionObject) :=
  if existsb (sameListener type callback) listeners then listeners
  else listeners ++ [(type, callback)].

Fixpoint removeEventListener (type : EventType) (callback : FunctionObject)
  (listeners : list (EventType * FunctionObject))
  : list (EventType * FunctionObject) :=
  match listeners with
  | [] => []
  | entry :: later =>
      if sameListener type callback entry then later
      else entry :: removeEventListener type callback later
  end.

(** The page the controller lives in: the document's listener list and
    how many function objects have been created ([bind] makes the next). *)
Record Page : Type := mkPage
  { documentListeners : list (EventType * FunctionObject);
    functionsCreated : N }.

(** The three listener fields of the class. *)
Record ListenerFields : Type := mkListenerFields
  { onTouchStartListener : FunctionObject;
    onTouchEndListener : FunctionObject;
    onTouchMoveListener : FunctionObject }.

(** Every registered callback exists already, so a function that [bind]
    is about to create is nowhere in the list. *)
Definition registeredExist (page : Page) : Prop :=
  forall entry, In entry (documentListeners page) ->
    (address_of (snd entry) < functionsCreated page)%N.

(** The constructor: the fields of [constructor], three calls of [bind],
    three calls of [document.addEventListener]. *)
Definition newTouchControllerFake (vp : VideoPlayer) (cc : CoordinateConverter)
  (page : Page) : TouchControllerFake * ListenerFields * Page :=
  let onStart := FunctionAt (functionsCreated page) in
  let onEnd := FunctionAt (functionsCreated page + 1) in
  let onMove := FunctionAt (functionsCreated page + 2) in
  (constructor vp cc,
   mkListenerFields onStart onEnd onMove,
   mkPage
     (addEventListener touchmove onMove
        (addEventListener touchend onEnd
           (addEventListener touchstart onStart (documentListeners page))))
     (functionsCreated page + 3)).

Definition unregisterTouchEvents (fields : ListenerFields) (page : Page) : Page :=
  mkPage
    (removeEventListener touchmove (onTouchMoveListener fields)
       (removeEventListener touchend (onTouchEndListener fields)
          (removeEventListener touchstart (onTouchStartListener fields)
             (documentListeners page))))
    (functionsCreated page).

(** ** What the streamer and the page see of a run *)

Definition isHoverEvent (e : Effect) : bool :=
  match e with
  | DispatchEvent _ _ _ => true
  | _ => false
  end.

Definition hoverEvents (log : list Effect) : list Effect :=
  filter isHoverEvent log.

Definition isMouseMove (e : Effect) : bool :=
  match e with
  | SendMessage MouseMove _ => true
  | _ => false
  end.

Definition isNormal {A : Type} (c : Completion A) : bool :=
  match c with
  | Normal _ => true
  | Throw _ => false
  end.





(** The rectangle of the last setter call among [inputs], and the
    collaborators last installed. *)
Fixpoint lastRect (inputs : list Input) (before : option DOMRect.t)
  : option DOMRect.t :=
  match inputs with
  | [] => before
  | SetRect rect :: later => lastRect later (Some rect)
  | _ :: later => lastRect later before
  end.

Fixpoint lastCollaborators (inputs : list Input)
  (before : VideoPlayer * CoordinateConverter)
  : VideoPlayer * CoordinateConverter :=
  match inputs with
  | [] => before
  | Collaborators vp cc :: later => lastCollaborators later (vp, cc)
  | _ :: later => lastCollaborators later before
  end.

Section Dispatch.

Variable mainButton : float.




End Dispatch.

(** ** A concrete configuration, for evaluating the handlers *)

Module Sample.

Definition video : Element := DomNode 1.
Definition parent : Element := DomNode 2.
Definition elsewhere : Element := DomNode 3.

(** A stand-in for [MouseButton.mainButton]. *)
Definition mainButton : float := 0%float.

(** A converter that leaves coordinates as they are. *)
Definition converter : CoordinateConverter :=
  {| normalizeAndQuantizeUnsigned := fun x y => Coord.mk x y;
     normalizeAndQuantizeSigned := fun x y => Coord.mk x y |}.

Definition player (ready : bool) : VideoPlayer :=
  {| isVideoReady := ready;
     getVideoElement := video;
     getVideoParentElement := parent |}.

Definition rect : DOMRect.t := DOMRect.mk 10%float 20%float.

Definition touchAt (id : Z) (cx cy : float) : Touch.t :=
  Touch.mk id cx cy.

(** An event on [el] whose two touch lists both hold the single touch [t]. *)
Definition eventOn (el : Element) (t : Touch.t) : TouchEvent.t :=
  TouchEvent.mk (Some el) [t] [t].

(** Finger 7 goes down at client (110,120) and moves to (160,170); finger
    8 is another contact. *)
Definition down : Touch.t := touchAt 7 110%float 120%float.
Definition moved : Touch.t := touchAt 7 160%float 170%float.
Definition stray : Touch.t := touchAt 8 5%float 5%float.

Definition finger7 : FakeTouchFinger.t :=
  FakeTouchFinger.mk 7 100%float 100%float.

(** The rectangle is cached, then finger 7 goes down on the video. *)
Definition script : list Input :=
  [SetRect rect; TouchStart (eventOn video down)].

(** The same, after which the video stops being ready. *)
Definition scriptUnready : list Input :=
  script ++ [Collaborators (player false) converter].

(** No finger, rectangle cached. *)
Definition idle (ready : bool) : TouchControllerFake :=
  with_rect rect (constructor (player ready) converter).

(** Finger 7 tracked at local (100,100), rectangle cached. *)
Definition tracking (ready : bool) : TouchControllerFake :=
  with_fakeTouchFinger (Some finger7) (idle ready).

(** Finger 7 tracked although no rectangle was ever cached. *)
Definition trackingNoRect : TouchControllerFake :=
  with_fakeTouchFinger (Some finger7) (constructor (player true) converter).

End Sample.

Module SamplePage.

(** A page on which somebody else listens to [touchstart] and
    [touchmove] with two functions of their own. *)
Definition page : Page :=
  mkPage [(touchstart, FunctionAt 0); (touchmove, FunctionAt 1)] 2.

(** The fields and the page after [new TouchControllerFake(...)]. *)
Definition fields : ListenerFields :=
  snd (fst (newTouchControllerFake (Sample.player true) Sample.converter page)).

Definition registered : Page :=
  snd (newTouchControllerFake (Sample.player true) Sample.converter page).

End SamplePage.

(** Unfolds the monad down to outcomes. *)
Ltac exec :=
  cbv beta delta
    [bind ret throw read_this assign_fakeTouchFinger perform
     member_of_touch member_of_rect setVideoElementParentClientRect];
  cbn.

(** * Properties *)

Section Properties.

Variable mainButton : float.

(** [onTouchMove] sends no button, so it alone does not depend on
    [mainButton]. *)
Local Abbreviation onTouchStart := (onTouchStart mainButton).
Local Abbreviation onTouchEnd := (onTouchEnd mainButton).
Local Abbreviation onTouchEnd_loop := (onTouchEnd_loop mainButton).
Local Abbreviation deliver := (deliver mainButton).
Local Abbreviation run := (run mainButton).
Local Abbreviation outcomes := (outcomes mainButton).
Local Abbreviation allGuardedOut := (allGuardedOut mainButton).
Local Abbreviation TouchStartCase := (TouchStartCase mainButton).
Local Abbreviation TouchEndCase := (TouchEndCase mainButton).


(** ** Elementary facts *)

Lemma Element_eqb_eq (a b : Element) : Element_eqb a b = true <-> a = b.
Proof.
  destruct a as [m], b as [n]; simpl.
  rewrite N.eqb_eq. split; intros H; [now subst | now inversion H].
Qed.

Lemma target_strictEq_iff (a : option Element) (b : Element) :
  target_strictEq a b = true <-> a = Some b.
Proof.
  destruct a as [n|]; simpl.
  - rewrite Element_eqb_eq. split; intros H; [now subst | now inversion H].
  - split; discriminate.
Qed.

Lemma target_strictEq_same (b : Element) : target_strictEq (Some b) b = true.
Proof. now apply target_strictEq_iff. Qed.

Lemma target_strictEq_other (a : option Element) (b : Element) :
  a <> Some b -> target_strictEq a b = false.
Proof.
  intros H. destruct (target_strictEq a b) eqn:E; [|reflexivity].
  now apply target_strictEq_iff in E.
Qed.

Lemma matching_iff (id : Z) (t : Touch.t) :
  matching id t = true <-> Touch.identifier t = id.
Proof. unfold matching. apply Z.eqb_eq. Qed.

Lemma matching_false_iff (id : Z) (t : Touch.t) :
  matching id t = false <-> Touch.identifier t <> id.
Proof. unfold matching. apply Z.eqb_neq. Qed.

(** A list of touches either holds no touch with identifier [id] or
    splits at the first one that has it. *)
Lemma first_match_split (id : Z) (l : list Touch.t) :
  forallb (fun t => negb (matching id t)) l = true
  \/ exists before t later,
       l = before ++ t :: later
       /\ forallb (fun t' => negb (matching id t')) before = true
       /\ matching id t = true.
Proof.
  induction l as [|a l IH]; [now left|].
  destruct (matching id a) eqn:E.
  - right. exists [], a, l. now repeat split.
  - destruct IH as [IH | (before & t & later & -> & Hb & Ht)].
    + left. simpl. now rewrite E.
    + right. exists (a :: before), t, later. simpl. rewrite E. now repeat split.
Qed.

(** ** The two loops *)

Lemma onTouchEnd_loop_no_match finger l this :
  forallb (fun t => negb (matching (FakeTouchFinger.id finger) t)) l = true ->
  onTouchEnd_loop finger l this = mkOutcome (Normal tt) this [].
Proof.
  induction l as [|a l IH]; simpl; intros H; [reflexivity|].
  apply andb_prop in H as [Ha Hl].
  apply negb_true_iff in Ha. rewrite Ha. now apply IH.
Qed.

Lemma onTouchEnd_loop_skip finger before l this :
  forallb (fun t => negb (matching (FakeTouchFinger.id finger) t)) before = true ->
  onTouchEnd_loop finger (before ++ l) this = onTouchEnd_loop finger l this.
Proof.
  induction before as [|a before IH]; simpl; intros H; [reflexivity|].
  apply andb_prop in H as [Ha Hl].
  apply negb_true_iff in Ha. rewrite Ha. now apply IH.
Qed.

Lemma onTouchEnd_loop_match finger t later this rect :
  matching (FakeTouchFinger.id finger) t = true ->
  videoElementParentClientRect this = Some rect ->
  onTouchEnd_loop finger (t :: later) this =
  let u :=
    normalizeAndQuantizeUnsigned (coordinateConverter this)
      (PrimFloat.sub (Touch.clientX t) (DOMRect.left rect))
      (PrimFloat.sub (Touch.clientY t) (DOMRect.top rect)) in
  mkOutcome (Normal tt) (with_fakeTouchFinger None this)
    [SendMessage MouseUp [mainButton; Coord.x u; Coord.y u];
     DispatchEvent (getVideoParentElement (videoPlayer this)) mouseleave t].
Proof.
  intros Ht Hr. simpl. rewrite Ht. exec. rewrite Hr. reflexivity.
Qed.

Lemma onTouchEnd_loop_match_unset finger t later this :
  matching (FakeTouchFinger.id finger) t = true ->
  videoElementParentClientRect this = None ->
  onTouchEnd_loop finger (t :: later) this =
  mkOutcome (Throw ReadOfUndefinedRect) this [].
Proof.
  intros Ht Hr. simpl. rewrite Ht. exec. rewrite Hr. reflexivity.
Qed.

Lemma onTouchMove_loop_no_match finger l this :
  forallb (fun t => negb (matching (FakeTouchFinger.id finger) t)) l = true ->
  onTouchMove_loop finger l this = mkOutcome (Normal tt) this [].
Proof.
  induction l as [|a l IH]; simpl; intros H; [reflexivity|].
  apply andb_prop in H as [Ha Hl].
  apply negb_true_iff in Ha. rewrite Ha. now apply IH.
Qed.

Lemma onTouchMove_loop_skip finger before l this :
  forallb (fun t => negb (matching (FakeTouchFinger.id finger) t)) before = true ->
  onTouchMove_loop finger (before ++ l) this = onTouchMove_loop finger l this.
Proof.
  induction before as [|a before IH]; simpl; intros H; [reflexivity|].
  apply andb_prop in H as [Ha Hl].
  apply negb_true_iff in Ha. rewrite Ha. now apply IH.
Qed.

Lemma onTouchMove_loop_match finger t later this rect :
  matching (FakeTouchFinger.id finger) t = true ->
  videoElementParentClientRect this = Some rect ->
  onTouchMove_loop finger (t :: later) this =
  let newX := PrimFloat.sub (Touch.clientX t) (DOMRect.left rect) in
  let newY := PrimFloat.sub (Touch.clientY t) (DOMRect.top rect) in
  let u := normalizeAndQuantizeUnsigned (coordinateConverter this) newX newY in
  let d :=
    normalizeAndQuantizeSigned (coordinateConverter this)
      (PrimFloat.sub newX (FakeTouchFinger.x finger))
      (PrimFloat.sub newY (FakeTouchFinger.y finger)) in
  mkOutcome (Normal tt)
    (with_fakeTouchFinger
       (Some (FakeTouchFinger.mk (FakeTouchFinger.id finger) newX newY)) this)
    [SendMessage MouseMove [Coord.x u; Coord.y u; Coord.x d; Coord.y d]].
Proof.
  intros Ht Hr. simpl. rewrite Ht. exec. rewrite Hr. reflexivity.
Qed.

Lemma onTouchMove_loop_match_unset finger t later this :
  matching (FakeTouchFinger.id finger) t = true ->
  videoElementParentClientRect this = None ->
  onTouchMove_loop finger (t :: later) this =
  mkOutcome (Throw ReadOfUndefinedRect) this [].
Proof.
  intros Ht Hr. simpl. rewrite Ht. exec. rewrite Hr. reflexivity.
Qed.

(** ** Single handler calls *)

Lemma bind_read_this {A : Type} (k : TouchControllerFake -> M A) this :
  (x <- read_this;; k x) this = k this this.
Proof. unfold bind, read_this. simpl. now destruct (k this this). Qed.


Lemma onTouchStart_guarded_out this touch :
  isVideoReady (videoPlayer this) = false
  \/ TouchEvent.target touch <> Some (getVideoElement (videoPlayer this)) ->
  onTouchStart touch this = ignored this.
Proof.
  intros H. unfold onTouchStart. exec.
  destruct H as [H | H].
  - rewrite H. reflexivity.
  - rewrite (target_strictEq_other _ _ H), orb_true_r. reflexivity.
Qed.

Lemma onTouchStart_idle_outcome this touch first others rect :
  fakeTouchFinger this = None ->
  isVideoReady (videoPlayer this) = true ->
  TouchEvent.target touch = Some (getVideoElement (videoPlayer this)) ->
  TouchEvent.changedTouches touch = first :: others ->
  videoElementParentClientRect this = Some rect ->
  onTouchStart touch this =
  let localX := PrimFloat.sub (Touch.clientX first) (DOMRect.left rect) in
  let localY := PrimFloat.sub (Touch.clientY first) (DOMRect.top rect) in
  let u := normalizeAndQuantizeUnsigned (coordinateConverter this) localX localY in
  mkOutcome (Normal tt)
    (with_fakeTouchFinger
       (Some (FakeTouchFinger.mk (Touch.identifier first) localX localY)) this)
    [DispatchEvent (getVideoParentElement (videoPlayer this)) mouseenter first;
     SendMessage MouseDown [mainButton; Coord.x u; Coord.y u];
     PreventDefault].
Proof.
  intros Hf Hready Htarget Hchanged Hrect. unfold onTouchStart. exec.
  rewrite Hready, Htarget, target_strictEq_same, Hf, Hchanged. exec.
  rewrite Hrect. reflexivity.
Qed.

Lemma onTouchStart_idle_unset_rect this touch first others :
  fakeTouchFinger this = None ->
  isVideoReady (videoPlayer this) = true ->
  TouchEvent.target touch = Some (getVideoElement (videoPlayer this)) ->
  TouchEvent.changedTouches touch = first :: others ->
  videoElementParentClientRect this = None ->
  onTouchStart touch this = mkOutcome (Throw ReadOfUndefinedRect) this [].
Proof.
  intros Hf Hready Htarget Hchanged Hrect. unfold onTouchStart. exec.
  rewrite Hready, Htarget, target_strictEq_same, Hf, Hchanged. exec.
  rewrite Hrect. reflexivity.
Qed.

Lemma onTouchStart_idle_no_touch this touch :
  fakeTouchFinger this = None ->
  isVideoReady (videoPlayer this) = true ->
  TouchEvent.target touch = Some (getVideoElement (videoPlayer this)) ->
  TouchEvent.changedTouches touch = [] ->
  onTouchStart touch this = mkOutcome (Throw ReadOfUndefinedTouch) this [].
Proof.
  intros Hf Hready Htarget Hchanged. unfold onTouchStart. exec.
  rewrite Hready, Htarget, target_strictEq_same, Hf, Hchanged. reflexivity.
Qed.

Lemma onTouchStart_tracking_outcome this touch finger :
  fakeTouchFinger this = Some finger ->
  isVideoReady (videoPlayer this) = true ->
  TouchEvent.target touch = Some (getVideoElement (videoPlayer this)) ->
  onTouchStart touch this = mkOutcome (Normal tt) this [PreventDefault].
Proof.
  intros Hf Hready Htarget. unfold onTouchStart. exec.
  rewrite Hready, Htarget, target_strictEq_same, Hf. reflexivity.
Qed.

Lemma onTouchEnd_not_ready this e :
  isVideoReady (videoPlayer this) = false -> onTouchEnd e this = ignored this.
Proof. intros H. unfold onTouchEnd. exec. rewrite H. reflexivity. Qed.

Lemma onTouchMove_not_ready this e :
  isVideoReady (videoPlayer this) = false -> onTouchMove e this = ignored this.
Proof. intros H. unfold onTouchMove. exec. rewrite H. reflexivity. Qed.

Lemma onTouchEnd_idle this e :
  fakeTouchFinger this = None -> onTouchEnd e this = ignored this.
Proof.
  intros H. unfold onTouchEnd. exec. rewrite H.
  now destruct (isVideoReady (videoPlayer this)).
Qed.

Lemma onTouchMove_idle this e :
  fakeTouchFinger this = None -> onTouchMove e this = ignored this.
Proof.
  intros H. unfold onTouchMove. exec. rewrite H.
  now destruct (isVideoReady (videoPlayer this)).
Qed.

(** Past its guard, a handler is its loop followed by [preventDefault]. *)
Lemma onTouchEnd_tracking_ready this finger e :
  fakeTouchFinger this = Some finger ->
  isVideoReady (videoPlayer this) = true ->
  onTouchEnd e this =
  (onTouchEnd_loop finger (TouchEvent.changedTouches e);; perform PreventDefault) this.
Proof.
  intros Hf Hready. unfold onTouchEnd. rewrite bind_read_this, Hready, Hf.
  reflexivity.
Qed.

Lemma onTouchMove_tracking_ready this finger e :
  fakeTouchFinger this = Some finger ->
  isVideoReady (videoPlayer this) = true ->
  onTouchMove e this =
  (onTouchMove_loop finger (TouchEvent.touches e);; perform PreventDefault) this.
Proof.
  intros Hf Hready. unfold onTouchMove. rewrite bind_read_this, Hready, Hf.
  reflexivity.
Qed.

Lemma no_match_forallb (id : Z) (l : list Touch.t) :
  (forall t, In t l -> Touch.identifier t <> id) ->
  forallb (fun t => negb (matching id t)) l = true.
Proof.
  intros H. apply forallb_forall. intros t Ht.
  apply negb_true_iff, matching_false_iff. now apply H.
Qed.

Lemma onTouchEnd_no_match_outcome this finger e :
  fakeTouchFinger this = Some finger ->
  isVideoReady (videoPlayer this) = true ->
  (forall t, In t (TouchEvent.changedTouches e) ->
             Touch.identifier t <> FakeTouchFinger.id finger) ->
  onTouchEnd e this = mkOutcome (Normal tt) this [PreventDefault].
Proof.
  intros Hf Hready Hno.
  rewrite (onTouchEnd_tracking_ready _ _ _ Hf Hready). unfold bind.
  rewrite onTouchEnd_loop_no_match by now apply no_match_forallb.
  reflexivity.
Qed.

Lemma onTouchEnd_match_outcome this finger rect e before t later :
  fakeTouchFinger this = Some finger ->
  isVideoReady (videoPlayer this) = true ->
  videoElementParentClientRect this = Some rect ->
  TouchEvent.changedTouches e = before ++ t :: later ->
  (forall t', In t' before -> Touch.identifier t' <> FakeTouchFinger.id finger) ->
  Touch.identifier t = FakeTouchFinger.id finger ->
  onTouchEnd e this =
  let u :=
    normalizeAndQuantizeUnsigned (coordinateConverter this)
      (PrimFloat.sub (Touch.clientX t) (DOMRect.left rect))
      (PrimFloat.sub (Touch.clientY t) (DOMRect.top rect)) in
  mkOutcome (Normal tt) (with_fakeTouchFinger None this)
    [SendMessage MouseUp [mainButton; Coord.x u; Coord.y u];
     DispatchEvent (getVideoParentElement (videoPlayer this)) mouseleave t;
     PreventDefault].
Proof.
  intros Hf Hready Hrect Hsplit Hbefore Ht.
  rewrite (onTouchEnd_tracking_ready _ _ _ Hf Hready), Hsplit. unfold bind.
  rewrite onTouchEnd_loop_skip by now apply no_match_forallb.
  rewrite (onTouchEnd_loop_match _ _ _ _ rect) by (trivial; now apply matching_iff).
  reflexivity.
Qed.

Lemma onTouchEnd_match_unset_rect this finger e before t later :
  fakeTouchFinger this = Some finger ->
  isVideoReady (videoPlayer this) = true ->
  videoElementParentClientRect this = None ->
  TouchEvent.changedTouches e = before ++ t :: later ->
  (forall t', In t' before -> Touch.identifier t' <> FakeTouchFinger.id finger) ->
  Touch.identifier t = FakeTouchFinger.id finger ->
  onTouchEnd e this = mkOutcome (Throw ReadOfUndefinedRect) this [].
Proof.
  intros Hf Hready Hrect Hsplit Hbefore Ht.
  rewrite (onTouchEnd_tracking_ready _ _ _ Hf Hready), Hsplit. unfold bind.
  rewrite onTouchEnd_loop_skip by now apply no_match_forallb.
  rewrite onTouchEnd_loop_match_unset by (trivial; now apply matching_iff).
  reflexivity.
Qed.

Lemma onTouchMove_no_match_outcome this finger e :
  fakeTouchFinger this = Some finger ->
  isVideoReady (videoPlayer this) = true ->
  (forall t, In t (TouchEvent.touches e) ->
             Touch.identifier t <> FakeTouchFinger.id finger) ->
  onTouchMove e this = mkOutcome (Normal tt) this [PreventDefault].
Proof.
  intros Hf Hready Hno.
  rewrite (onTouchMove_tracking_ready _ _ _ Hf Hready). unfold bind.
  rewrite onTouchMove_loop_no_match by now apply no_match_forallb.
  reflexivity.
Qed.

Lemma onTouchMove_match_outcome this finger rect e before t later :
  fakeTouchFinger this = Some finger ->
  isVideoReady (videoPlayer this) = true ->
  videoElementParentClientRect this = Some rect ->
  TouchEvent.touches e = before ++ t :: later ->
  (forall t', In t' before -> Touch.identifier t' <> FakeTouchFinger.id finger) ->
  Touch.identifier t = FakeTouchFinger.id finger ->
  onTouchMove e this =
  let newX := PrimFloat.sub (Touch.clientX t) (DOMRect.left rect) in
  let newY := PrimFloat.sub (Touch.clientY t) (DOMRect.top rect) in
  let u := normalizeAndQuantizeUnsigned (coordinateConverter this) newX newY in
  let d :=
    normalizeAndQuantizeSigned (coordinateConverter this)
      (PrimFloat.sub newX (FakeTouchFinger.x finger))
      (PrimFloat.sub newY (FakeTouchFinger.y finger)) in
  mkOutcome (Normal tt)
    (with_fakeTouchFinger
       (Some (FakeTouchFinger.mk (FakeTouchFinger.id finger) newX newY)) this)
    [SendMessage MouseMove [Coord.x u; Coord.y u; Coord.x d; Coord.y d];
     PreventDefault].
Proof.
  intros Hf Hready Hrect Hsplit Hbefore Ht.
  rewrite (onTouchMove_tracking_ready _ _ _ Hf Hready), Hsplit. unfold bind.
  rewrite onTouchMove_loop_skip by now apply no_match_forallb.
  rewrite (onTouchMove_loop_match _ _ _ _ rect) by (trivial; now apply matching_iff).
  reflexivity.
Qed.

Lemma onTouchMove_match_unset_rect this finger e before t later :
  fakeTouchFinger this = Some finger ->
  isVideoReady (videoPlayer this) = true ->
  videoElementParentClientRect this = None ->
  TouchEvent.touches e = before ++ t :: later ->
  (forall t', In t' before -> Touch.identifier t' <> FakeTouchFinger.id finger) ->
  Touch.identifier t = FakeTouchFinger.id finger ->
  onTouchMove e this = mkOutcome (Throw ReadOfUndefinedRect) this [].
Proof.
  intros Hf Hready Hrect Hsplit Hbefore Ht.
  rewrite (onTouchMove_tracking_ready _ _ _ Hf Hready), Hsplit. unfold bind.
  rewrite onTouchMove_loop_skip by now apply no_match_forallb.
  rewrite onTouchMove_loop_match_unset by (trivial; now apply matching_iff).
  reflexivity.
Qed.

(** The Prop reading of [first_match_split]. *)
Lemma first_match_cases (id : Z) (l : list Touch.t) :
  (forall t, In t l -> Touch.identifier t <> id)
  \/ exists before t later,
       l = before ++ t :: later
       /\ (forall t', In t' before -> Touch.identifier t' <> id)
       /\ Touch.identifier t = id.
Proof.
  destruct (first_match_split id l) as [H | (before & t & later & Hl & Hb & Ht)].
  - left. intros t Ht. rewrite forallb_forall in H.
    apply matching_false_iff, negb_true_iff. now apply H.
  - right. exists before, t, later. repeat split; trivial.
    + intros t' Ht'. rewrite forallb_forall in Hb.
      apply matching_false_iff, negb_true_iff. now apply Hb.
    + now apply matching_iff.
Qed.

(** ** The handlers meet their case analyses *)

Lemma onTouchStart_cases this e : TouchStartCase this e (onTouchStart e this).
Proof.
  destruct (isVideoReady (videoPlayer this)) eqn:Hready.
  2:{ rewrite onTouchStart_guarded_out by now left. constructor. now left. }
  destruct (target_strictEq (TouchEvent.target e)
              (getVideoElement (videoPlayer this))) eqn:Htarget.
  2:{ assert (TouchEvent.target e <> Some (getVideoElement (videoPlayer this))) as Hne.
      { intros Heq. apply target_strictEq_iff in Heq. congruence. }
      rewrite onTouchStart_guarded_out by now right. constructor. now right. }
  apply target_strictEq_iff in Htarget.
  destruct (fakeTouchFinger this) as [finger|] eqn:Hf.
  { rewrite (onTouchStart_tracking_outcome this e finger) by trivial.
    eapply TouchStart_swallowed; eauto. }
  destruct (TouchEvent.changedTouches e) as [|first others] eqn:Hchanged.
  { rewrite onTouchStart_idle_no_touch by trivial. now constructor. }
  destruct (videoElementParentClientRect this) as [rect|] eqn:Hrect.
  - rewrite (onTouchStart_idle_outcome this e first others rect) by trivial.
    eapply TouchStart_tracks; eauto.
  - rewrite (onTouchStart_idle_unset_rect this e first others) by trivial.
    eapply TouchStart_unset_rect; eauto.
Qed.

Lemma onTouchEnd_cases this e : TouchEndCase this e (onTouchEnd e this).
Proof.
  destruct (isVideoReady (videoPlayer this)) eqn:Hready.
  2:{ rewrite onTouchEnd_not_ready by trivial. constructor. now left. }
  destruct (fakeTouchFinger this) as [finger|] eqn:Hf.
  2:{ rewrite onTouchEnd_idle by trivial. constructor. now right. }
  destruct (first_match_cases (FakeTouchFinger.id finger) (TouchEvent.changedTouches e))
    as [Hno | (before & t & later & Hsplit & Hbefore & Ht)].
  { rewrite (onTouchEnd_no_match_outcome this finger e) by trivial.
    eapply TouchEnd_no_match; eauto. }
  destruct (videoElementParentClientRect this) as [rect|] eqn:Hrect.
  - rewrite (onTouchEnd_match_outcome this finger rect e before t later) by trivial.
    eapply TouchEnd_releases; eauto.
  - rewrite (onTouchEnd_match_unset_rect this finger e before t later) by trivial.
    eapply TouchEnd_unset_rect; eauto.
Qed.

Lemma onTouchMove_cases this e : TouchMoveCase this e (onTouchMove e this).
Proof.
  destruct (isVideoReady (videoPlayer this)) eqn:Hready.
  2:{ rewrite onTouchMove_not_ready by trivial. constructor. now left. }
  destruct (fakeTouchFinger this) as [finger|] eqn:Hf.
  2:{ rewrite onTouchMove_idle by trivial. constructor. now right. }
  destruct (first_match_cases (FakeTouchFinger.id finger) (TouchEvent.touches e))
    as [Hno | (before & t & later & Hsplit & Hbefore & Ht)].
  { rewrite (onTouchMove_no_match_outcome this finger e) by trivial.
    eapply TouchMove_no_match; eauto. }
  destruct (videoElementParentClientRect this) as [rect|] eqn:Hrect.
  - rewrite (onTouchMove_match_outcome this finger rect e before t later) by trivial.
    eapply TouchMove_moves; eauto.
  - rewrite (onTouchMove_match_unset_rect this finger e before t later) by trivial.
    eapply TouchMove_unset_rect; eauto.
Qed.

(** ** Sequences of inputs *)

Lemma outcomes_all_ignored this inputs :
  (forall i, In i inputs -> deliver i this = ignored this) ->
  outcomes this inputs = map (fun _ => ignored this) inputs
  /\ run this inputs = this.
Proof.
  induction inputs as [|i inputs IH]; intros H; [now split|].
  simpl. rewrite (H i) by now left. simpl.
  destruct IH as [IHo IHr]; [intros j Hj; apply H; now right|].
  now rewrite IHo, IHr.
Qed.

(** Whoever tracks a finger has a cached rectangle: the touch-start that
    stored the finger read it, and nothing takes it away. *)
Lemma tracking_has_rect_step this i :
  fakeTouchFinger this = None
  \/ (exists rect, videoElementParentClientRect this = Some rect) ->
  fakeTouchFinger (this_after (deliver i this)) = None
  \/ (exists rect,
        videoElementParentClientRect (this_after (deliver i this)) = Some rect).
Proof.
  intros Hinv.
  destruct i as [r | e | e | e | vp cc]; unfold deliver.
  - right. now exists r.
  - destruct (onTouchStart_cases this e) as
      [Hg | finger Hr Ht Hf | Hr Ht Hf Hc | first others Hr Ht Hf Hc Hrect
       | first others rect Hr Ht Hf Hc Hrect]; trivial.
    right. now exists rect.
  - destruct (onTouchEnd_cases this e) as
      [Hg | finger Hr Hf Hno | finger before t later Hr Hf Hs Hb Ht Hrect
       | finger before t later rect Hr Hf Hs Hb Ht Hrect]; trivial.
    now left.
  - destruct (onTouchMove_cases this e) as
      [Hg | finger Hr Hf Hno | finger before t later Hr Hf Hs Hb Ht Hrect
       | finger before t later rect Hr Hf Hs Hb Ht Hrect]; trivial.
    right. now exists rect.
  - exact Hinv.
Qed.

Lemma tracking_has_rect this inputs finger :
  fakeTouchFinger this = None
  \/ (exists rect, videoElementParentClientRect this = Some rect) ->
  fakeTouchFinger (run this inputs) = Some finger ->
  exists rect, videoElementParentClientRect (run this inputs) = Some rect.
Proof.
  revert this. induction inputs as [|i inputs IH]; intros this Hinv Hf.
  - simpl in *. destruct Hinv as [Hnone | Hrect]; [congruence | exact Hrect].
  - cbn [run] in *. apply IH; [|exact Hf].
    now apply tracking_has_rect_step.
Qed.

(** ** Single events *)

(** C1, amended.  While no finger is tracked, the video is ready and the
    bounding rectangle is cached as [rect], a touch-start on the video
    element with a first changed touch [first] completes normally, stores
    the finger [(first.identifier, first.clientX - rect.left,
    first.clientY - rect.top)], dispatches one [mouseenter] built from
    [first] on the video's parent element, sends one [MouseDown] with
    payload [[mainButton, u.x, u.y]] for [u] the unsigned normalisation of
    the stored position, and suppresses the default behaviour; nothing
    else is sent or dispatched. *)
Theorem onTouchStart_idle_starts_tracking this touch first others rect :
  fakeTouchFinger this = None ->
  isVideoReady (videoPlayer this) = true ->
  TouchEvent.target touch = Some (getVideoElement (videoPlayer this)) ->
  TouchEvent.changedTouches touch = first :: others ->
  videoElementParentClientRect this = Some rect ->
  let localX := PrimFloat.sub (Touch.clientX first) (DOMRect.left rect) in
  let localY := PrimFloat.sub (Touch.clientY first) (DOMRect.top rect) in
  let u := normalizeAndQuantizeUnsigned (coordinateConverter this) localX localY in
  onTouchStart touch this =
  mkOutcome (Normal tt)
    (with_fakeTouchFinger
       (Some (FakeTouchFinger.mk (Touch.identifier first) localX localY)) this)
    [DispatchEvent (getVideoParentElement (videoPlayer this)) mouseenter first;
     SendMessage MouseDown [mainButton; Coord.x u; Coord.y u];
     PreventDefault].
Proof.
  intros Hf Hready Htarget Hchanged Hrect.
  exact (onTouchStart_idle_outcome this touch first others rect
           Hf Hready Htarget Hchanged Hrect).
Qed.

(** C2, amended.  In every state the controller reaches from construction
    in which a finger is tracked and the video is ready, the rectangle is
    cached, and: a touch-move none of whose [touches] has the tracked id
    sends nothing and leaves [this] as it was; a touch-move whose first
    touch with the tracked id is [t] sends exactly one [MouseMove] with
    payload [[u.x, u.y, d.x, d.y]], [u] the unsigned normalisation of
    [t]'s rectangle-relative position [(newX, newY)] and [d] the signed
    normalisation of its difference from the stored position, and
    afterwards the stored position is [(newX, newY)] under the same id. *)
Theorem onTouchMove_tracking_ready_moves vp cc inputs finger e :
  let this := run (constructor vp cc) inputs in
  fakeTouchFinger this = Some finger ->
  isVideoReady (videoPlayer this) = true ->
  exists rect,
    videoElementParentClientRect this = Some rect
    /\
    ((forall t, In t (TouchEvent.touches e) ->
                Touch.identifier t <> FakeTouchFinger.id finger) ->
     onTouchMove e this = mkOutcome (Normal tt) this [PreventDefault])
    /\
    (forall before t later,
       TouchEvent.touches e = before ++ t :: later ->
       (forall t', In t' before -> Touch.identifier t' <> FakeTouchFinger.id finger) ->
       Touch.identifier t = FakeTouchFinger.id finger ->
       let newX := PrimFloat.sub (Touch.clientX t) (DOMRect.left rect) in
       let newY := PrimFloat.sub (Touch.clientY t) (DOMRect.top rect) in
       let u := normalizeAndQuantizeUnsigned (coordinateConverter this) newX newY in
       let d :=
         normalizeAndQuantizeSigned (coordinateConverter this)
           (PrimFloat.sub newX (FakeTouchFinger.x finger))
           (PrimFloat.sub newY (FakeTouchFinger.y finger)) in
       onTouchMove e this =
       mkOutcome (Normal tt)
         (with_fakeTouchFinger
            (Some (FakeTouchFinger.mk (FakeTouchFinger.id finger) newX newY)) this)
         [SendMessage MouseMove [Coord.x u; Coord.y u; Coord.x d; Coord.y d];
          PreventDefault]).
Proof.
  intros this Hf Hready.
  destruct (tracking_has_rect (constructor vp cc) inputs finger) as (rect & Hrect);
    [now left | exact Hf |].
  exists rect. split; [exact Hrect|]. split.
  - now apply onTouchMove_no_match_outcome.
  - intros before t later Hsplit Hbefore Ht.
    now apply (onTouchMove_match_outcome this finger rect e before t later).
Qed.

(** C3, amended.  In every state the controller reaches from construction
    in which a finger is tracked and the video is ready, the rectangle is
    cached, and: a touch-end whose first changed touch with the tracked id
    is [t] sends exactly one [MouseUp] with payload [[mainButton, u.x,
    u.y]], dispatches exactly one [mouseleave] built from [t] on the
    parent element and clears the finger, whatever follows [t] in the
    list; a qualifying touch-start delivered next is accepted and tracks
    its own first changed touch.  A touch-end none of whose changed
    touches has the tracked id leaves [this] as it was and sends
    nothing. *)
Theorem onTouchEnd_tracking_ready_releases vp cc inputs finger e :
  let this := run (constructor vp cc) inputs in
  fakeTouchFinger this = Some finger ->
  isVideoReady (videoPlayer this) = true ->
  exists rect,
    videoElementParentClientRect this = Some rect
    /\
    (forall before t later,
       TouchEvent.changedTouches e = before ++ t :: later ->
       (forall t', In t' before -> Touch.identifier t' <> FakeTouchFinger.id finger) ->
       Touch.identifier t = FakeTouchFinger.id finger ->
       let u :=
         normalizeAndQuantizeUnsigned (coordinateConverter this)
           (PrimFloat.sub (Touch.clientX t) (DOMRect.left rect))
           (PrimFloat.sub (Touch.clientY t) (DOMRect.top rect)) in
       onTouchEnd e this =
       mkOutcome (Normal tt) (with_fakeTouchFinger None this)
         [SendMessage MouseUp [mainButton; Coord.x u; Coord.y u];
          DispatchEvent (getVideoParentElement (videoPlayer this)) mouseleave t;
          PreventDefault]
       /\
       forall next first others,
         TouchEvent.target next = Some (getVideoElement (videoPlayer this)) ->
         TouchEvent.changedTouches next = first :: others ->
         let o := onTouchStart next (this_after (onTouchEnd e this)) in
         completion o = Normal tt
         /\ fakeTouchFinger (this_after o) =
            Some (FakeTouchFinger.mk (Touch.identifier first)
                    (PrimFloat.sub (Touch.clientX first) (DOMRect.left rect))
                    (PrimFloat.sub (Touch.clientY first) (DOMRect.top rect)))
         /\ length (messages (effects o)) = 1%nat)
    /\
    ((forall t, In t (TouchEvent.changedTouches e) ->
                Touch.identifier t <> FakeTouchFinger.id finger) ->
     onTouchEnd e this = mkOutcome (Normal tt) this [PreventDefault]).
Proof.
  intros this Hf Hready.
  destruct (tracking_has_rect (constructor vp cc) inputs finger) as (rect & Hrect);
    [now left | exact Hf |].
  exists rect. split; [exact Hrect|]. split.
  - intros before t later Hsplit Hbefore Ht u.
    pose proof (onTouchEnd_match_outcome this finger rect e before t later
                  Hf Hready Hrect Hsplit Hbefore Ht) as Hend.
    split; [exact Hend|].
    intros next first others Htarget Hchanged. rewrite Hend. cbn zeta.
    cbn [this_after].
    rewrite (onTouchStart_idle_outcome (with_fakeTouchFinger None this)
               next first others rect); trivial.
    now repeat split.
  - now apply onTouchEnd_no_match_outcome.
Qed.

(** C4, amended.  In every state the controller reaches from construction
    in which a finger is tracked and the video is ready, every touch-move
    and every touch-end completes normally and calls [preventDefault]
    exactly once, whether or not one of its touches has the tracked id. *)
Theorem tracking_ready_suppresses_default vp cc inputs finger e :
  let this := run (constructor vp cc) inputs in
  fakeTouchFinger this = Some finger ->
  isVideoReady (videoPlayer this) = true ->
  (completion (onTouchMove e this) = Normal tt
   /\ suppressions (effects (onTouchMove e this)) = 1%nat)
  /\
  (completion (onTouchEnd e this) = Normal tt
   /\ suppressions (effects (onTouchEnd e this)) = 1%nat).
Proof.
  intros this Hf Hready.
  destruct (tracking_has_rect (constructor vp cc) inputs finger) as (rect & Hrect);
    [now left | exact Hf |].
  fold this in Hrect. split.
  - destruct (first_match_cases (FakeTouchFinger.id finger) (TouchEvent.touches e))
      as [Hno | (before & t & later & Hsplit & Hbefore & Ht)].
    + rewrite (onTouchMove_no_match_outcome this finger e); auto.
    + rewrite (onTouchMove_match_outcome this finger rect e before t later); auto.
  - destruct (first_match_cases (FakeTouchFinger.id finger)
                (TouchEvent.changedTouches e))
      as [Hno | (before & t & later & Hsplit & Hbefore & Ht)].
    + rewrite (onTouchEnd_no_match_outcome this finger e); auto.
    + rewrite (onTouchEnd_match_outcome this finger rect e before t later); auto.
Qed.

(** C6. While a finger is tracked and the video is ready, a touch-start on
    the video element sends no message, dispatches no hover event, leaves
    [this] (and so the finger's id, x and y) as it was, and calls
    [preventDefault]. *)
Theorem onTouchStart_while_tracking_swallowed this touch finger :
  fakeTouchFinger this = Some finger ->
  isVideoReady (videoPlayer this) = true ->
  TouchEvent.target touch = Some (getVideoElement (videoPlayer this)) ->
  onTouchStart touch this = mkOutcome (Normal tt) this [PreventDefault].
Proof.
  intros Hf Hready Htarget.
  exact (onTouchStart_tracking_outcome this touch finger Hf Hready Htarget).
Qed.

(** C7. While no finger is tracked: every touch-start of a sequence whose
    events each find the video not ready or target something else than the
    video element returns at once (nothing sent, [this] unchanged, default
    behaviour not suppressed), and so does every touch-move and every
    touch-end. *)
Theorem idle_guarded_out_events_are_noops this :
  fakeTouchFinger this = None ->
  (forall starts,
     (forall e, In e starts ->
        isVideoReady (videoPlayer this) = false
        \/ TouchEvent.target e <> Some (getVideoElement (videoPlayer this))) ->
     outcomes this (map TouchStart starts) = map (fun _ => ignored this) starts
     /\ run this (map TouchStart starts) = this)
  /\ (forall e, onTouchMove e this = ignored this)
  /\ (forall e, onTouchEnd e this = ignored this).
Proof.
  intros Hf. repeat split.
  - rewrite <- (map_map TouchStart (fun _ => ignored this)).
    apply outcomes_all_ignored.
    intros i Hi. apply in_map_iff in Hi as (e & <- & He).
    simpl. now apply onTouchStart_guarded_out, H.
  - apply outcomes_all_ignored.
    intros i Hi. apply in_map_iff in Hi as (e & <- & He).
    simpl. now apply onTouchStart_guarded_out, H.
  - intros e. now apply onTouchMove_idle.
  - intros e. now apply onTouchEnd_idle.
Qed.

(** C9. While a finger is tracked and the video is not ready, every
    touch-move and every touch-end returns at once: nothing sent, the
    finger neither updated nor cleared, default behaviour not suppressed;
    hence no sequence of touch-moves and touch-ends releases the finger. *)
Theorem not_ready_ignores_move_and_end this finger :
  fakeTouchFinger this = Some finger ->
  isVideoReady (videoPlayer this) = false ->
  (forall e, onTouchMove e this = ignored this)
  /\ (forall e, onTouchEnd e this = ignored this)
  /\ (forall inputs,
        (forall i, In i inputs -> exists e, i = TouchMove e \/ i = TouchEnd e) ->
        outcomes this inputs = map (fun _ => ignored this) inputs
        /\ fakeTouchFinger (run this inputs) = Some finger).
Proof.
  intros Hf Hready. split; [|split].
  - intros e. now apply onTouchMove_not_ready.
  - intros e. now apply onTouchEnd_not_ready.
  - intros inputs Hin.
    destruct (outcomes_all_ignored this inputs) as [Ho Hr].
    + intros i Hi. destruct (Hin i Hi) as (e & [-> | ->]); simpl.
      * now apply onTouchMove_not_ready.
      * now apply onTouchEnd_not_ready.
    + now rewrite Ho, Hr.
Qed.

Lemma run_app this inputs later :
  run this (inputs ++ later) = run (run this inputs) later.
Proof.
  revert this. induction inputs as [|i inputs IH]; intros this; [reflexivity|].
  simpl. apply IH.
Qed.

Lemma outcomes_app this inputs later :
  outcomes this (inputs ++ later) =
  outcomes this inputs ++ outcomes (run this inputs) later.
Proof.
  revert this. induction inputs as [|i inputs IH]; intros this; [reflexivity|].
  simpl. now rewrite IH.
Qed.

Lemma last_cons_default {A : Type} (l : list A) (x d : A) :
  last (x :: l) d = last l x.
Proof.
  revert x d. induction l as [|a l IH]; intros x d; [reflexivity|].
  change (last (x :: a :: l) d) with (last (a :: l) d).
  now rewrite (IH a d), (IH a x).
Qed.

(** The controller after a run is the one the last handler call left. *)
Lemma run_last_outcome this inputs :
  run this inputs = last (map this_after (outcomes this inputs)) this.
Proof.
  revert this. induction inputs as [|i inputs IH]; intros this; [reflexivity|].
  cbn [run outcomes map]. now rewrite IH, last_cons_default.
Qed.

(** How one input can change whether, and which, finger is tracked. *)
Lemma deliver_finger this i :
  match fakeTouchFinger this, fakeTouchFinger (this_after (deliver i this)) with
  | None, None => True
  | None, Some f' =>
      exists e first others,
        i = TouchStart e
        /\ TouchEvent.changedTouches e = first :: others
        /\ Touch.identifier first = FakeTouchFinger.id f'
  | Some f, Some f' => FakeTouchFinger.id f' = FakeTouchFinger.id f
  | Some f, None =>
      exists e t,
        i = TouchEnd e
        /\ In t (TouchEvent.changedTouches e)
        /\ Touch.identifier t = FakeTouchFinger.id f
  end.
Proof.
  destruct i as [rect | e | e | e | vp cc]; unfold deliver.
  - simpl. now destruct (fakeTouchFinger this).
  - destruct (onTouchStart_cases this e) as
      [Hg | finger Hr Ht Hf | Hr Ht Hf Hc | first others Hr Ht Hf Hc Hrect
       | first others rect Hr Ht Hf Hc Hrect]; unfold ignored; simpl.
    + now destruct (fakeTouchFinger this).
    + now rewrite Hf.
    + now rewrite Hf.
    + now rewrite Hf.
    + rewrite Hf. now exists e, first, others.
  - destruct (onTouchEnd_cases this e) as
      [Hg | finger Hr Hf Hno | finger before t later Hr Hf Hs Hb Ht Hrect
       | finger before t later rect Hr Hf Hs Hb Ht Hrect]; unfold ignored; simpl.
    + now destruct (fakeTouchFinger this).
    + now rewrite Hf.
    + now rewrite Hf.
    + rewrite Hf. exists e, t. repeat split; trivial.
      rewrite Hs. apply in_or_app. right. now left.
  - destruct (onTouchMove_cases this e) as
      [Hg | finger Hr Hf Hno | finger before t later Hr Hf Hs Hb Ht Hrect
       | finger before t later rect Hr Hf Hs Hb Ht Hrect]; unfold ignored; simpl.
    + now destruct (fakeTouchFinger this).
    + now rewrite Hf.
    + now rewrite Hf.
    + now rewrite Hf.
  - simpl. now destruct (fakeTouchFinger this).
Qed.

(** A touch-move never clears the finger. *)
Lemma onTouchMove_keeps_finger this e f :
  fakeTouchFinger this = Some f ->
  exists f', fakeTouchFinger (this_after (onTouchMove e this)) = Some f'
             /\ FakeTouchFinger.id f' = FakeTouchFinger.id f.
Proof.
  intros Hf0.
  destruct (onTouchMove_cases this e) as
    [Hg | finger Hr Hf Hno | finger before t later Hr Hf Hs Hb Ht Hrect
     | finger before t later rect Hr Hf Hs Hb Ht Hrect]; simpl;
    try (exists f; now split).
  eexists. split; [reflexivity|]. simpl. congruence.
Qed.

(** From a controller that tracks nothing, a finger tracked after
    [inputs] was created by a touch-start of [inputs] out of that event's
    first changed touch, and every state since tracks that same id. *)
Lemma tracked_finger_origin this inputs :
  fakeTouchFinger this = None ->
  forall f, fakeTouchFinger (run this inputs) = Some f ->
  exists before e first others after,
    inputs = before ++ TouchStart e :: after
    /\ fakeTouchFinger (run this before) = None
    /\ TouchEvent.changedTouches e = first :: others
    /\ Touch.identifier first = FakeTouchFinger.id f
    /\ forall k, exists f',
         fakeTouchFinger (run this (before ++ TouchStart e :: firstn k after)) = Some f'
         /\ FakeTouchFinger.id f' = FakeTouchFinger.id f.
Proof.
  intros Hidle. induction inputs as [|i inputs IH] using rev_ind; intros f Hfinal.
  - simpl in Hfinal. congruence.
  - rewrite run_app in Hfinal. simpl in Hfinal.
    pose proof (deliver_finger (run this inputs) i) as Hstep.
    rewrite Hfinal in Hstep.
    destruct (fakeTouchFinger (run this inputs)) as [f0|] eqn:Hprev.
    + destruct (IH f0 eq_refl) as
        (before & e & first & others & after & Hin & Hb & Hc & Hid & Hall).
      exists before, e, first, others, (after ++ [i]).
      repeat split; trivial.
      * rewrite Hin, <- app_assoc. reflexivity.
      * congruence.
      * intros k. destruct (Nat.le_gt_cases k (length after)) as [Hk | Hk].
        -- rewrite firstn_app.
           replace (k - length after)%nat with 0%nat by lia.
           simpl. rewrite app_nil_r.
           destruct (Hall k) as (f' & Hf' & Hid'). exists f'. split; congruence.
        -- rewrite firstn_all2 by (rewrite length_app; simpl; lia).
           exists f. split; [|reflexivity].
           replace (before ++ TouchStart e :: after ++ [i])
             with (inputs ++ [i]) by (rewrite Hin, <- app_assoc; reflexivity).
           rewrite run_app. exact Hfinal.
    + destruct Hstep as (e & first & others & -> & Hc & Hid).
      exists inputs, e, first, others, []. repeat split; trivial.
      intros k. exists f. split; [|reflexivity].
      rewrite firstn_nil, run_app. exact Hfinal.
Qed.

(** ** Reachable states *)

(** C5. The controller holds its finger in one optional field, so no
    state tracks two.  After any inputs from construction: a tracked
    finger was created by a touch-start among the inputs, before which
    nothing was tracked, its id is the identifier of that event's first
    changed touch, and every state since tracks that id; a touch-move
    leaves a finger with the same id tracked; and an input that clears the
    finger is a touch-end with a changed touch of that id. *)
Theorem tracked_finger_id_is_stable vp cc inputs :
  let final := run (constructor vp cc) inputs in
  (forall f, fakeTouchFinger final = Some f ->
     exists before e first others after,
       inputs = before ++ TouchStart e :: after
       /\ fakeTouchFinger (run (constructor vp cc) before) = None
       /\ TouchEvent.changedTouches e = first :: others
       /\ Touch.identifier first = FakeTouchFinger.id f
       /\ forall k, exists f',
            fakeTouchFinger
              (run (constructor vp cc) (before ++ TouchStart e :: firstn k after))
            = Some f'
            /\ FakeTouchFinger.id f' = FakeTouchFinger.id f)
  /\ (forall f e, fakeTouchFinger final = Some f ->
        exists f', fakeTouchFinger (run final [TouchMove e]) = Some f'
                   /\ FakeTouchFinger.id f' = FakeTouchFinger.id f)
  /\ (forall f i, fakeTouchFinger final = Some f ->
        fakeTouchFinger (run final [i]) = None ->
        exists e t,
          i = TouchEnd e
          /\ In t (TouchEvent.changedTouches e)
          /\ Touch.identifier t = FakeTouchFinger.id f).
Proof.
  intros final. split; [|split].
  - now apply tracked_finger_origin.
  - intros f e Hf. simpl. now apply onTouchMove_keeps_finger.
  - intros f i Hf Hcleared. simpl in Hcleared.
    pose proof (deliver_finger final i) as Hstep.
    now rewrite Hf, Hcleared in Hstep.
Qed.

(** A handler fails on the rectangle only when none is cached and the
    event passed the handler's guard. *)
Lemma throwsRectRead_inv this i :
  throwsRectRead (deliver i this) = true ->
  videoElementParentClientRect this = None /\ passesGuard this i = true.
Proof.
  destruct i as [rect | e | e | e | vp cc]; unfold deliver, passesGuard.
  - discriminate.
  - destruct (onTouchStart_cases this e) as
      [Hg | finger Hr Ht Hf | Hr Ht Hf Hc | first others Hr Ht Hf Hc Hrect
       | first others rect Hr Ht Hf Hc Hrect]; try discriminate.
    intros _. now rewrite Hr, Ht, target_strictEq_same.
  - destruct (onTouchEnd_cases this e) as
      [Hg | finger Hr Hf Hno | finger before t later Hr Hf Hs Hb Ht Hrect
       | finger before t later rect Hr Hf Hs Hb Ht Hrect]; try discriminate.
    intros _. now rewrite Hr, Hf.
  - destruct (onTouchMove_cases this e) as
      [Hg | finger Hr Hf Hno | finger before t later Hr Hf Hs Hb Ht Hrect
       | finger before t later rect Hr Hf Hs Hb Ht Hrect]; try discriminate.
    intros _. now rewrite Hr, Hf.
  - discriminate.
Qed.

(** No input takes a cached rectangle away. *)
Lemma rect_stays_cached this i rect :
  videoElementParentClientRect this = Some rect ->
  exists rect', videoElementParentClientRect (this_after (deliver i this)) = Some rect'.
Proof.
  intros Hrect0.
  destruct i as [r | e | e | e | vp cc]; unfold deliver.
  - now exists r.
  - destruct (onTouchStart_cases this e); now exists rect.
  - destruct (onTouchEnd_cases this e); now exists rect.
  - destruct (onTouchMove_cases this e); now exists rect.
  - now exists rect.
Qed.

Lemma cached_rect_never_fails this inputs rect :
  videoElementParentClientRect this = Some rect ->
  forallb (fun o => negb (throwsRectRead o)) (outcomes this inputs) = true.
Proof.
  revert this rect. induction inputs as [|i inputs IH]; intros this rect Hrect;
    [reflexivity|].
  cbn [outcomes forallb]. apply andb_true_intro. split.
  - destruct (throwsRectRead (deliver i this)) eqn:E; [|reflexivity].
    apply throwsRectRead_inv in E as [E _]. congruence.
  - destruct (rect_stays_cached this i rect Hrect) as (rect' & Hrect').
    now apply IH with rect'.
Qed.

Lemma guarded_out_never_fails this inputs :
  allGuardedOut this inputs = true ->
  forallb (fun o => negb (throwsRectRead o)) (outcomes this inputs) = true.
Proof.
  revert this. induction inputs as [|i inputs IH]; intros this H; [reflexivity|].
  cbn [allGuardedOut] in H. apply andb_prop in H as [Hi Hlater].
  cbn [outcomes forallb]. apply andb_true_intro. split.
  - destruct (throwsRectRead (deliver i this)) eqn:E; [|reflexivity].
    apply throwsRectRead_inv in E as [_ E]. now rewrite E in Hi.
  - now apply IH.
Qed.

(** C10. When [setVideoElementParentClientRect] is called before any
    touch event has passed its handler's guard, no handler call of the
    controller's life fails on the rectangle.  Without it, a touch-start
    that passes the guard, finds no finger and has a first changed touch
    fails on the rectangle: the exception leaves the handler, with nothing
    stored, nothing sent and the default behaviour not suppressed. *)
Theorem rect_read_safety vp cc :
  (forall before rect after,
     allGuardedOut (constructor vp cc) before = true ->
     forallb (fun o => negb (throwsRectRead o))
       (outcomes (constructor vp cc) (before ++ SetRect rect :: after)) = true)
  /\
  (forall this e first others,
     videoElementParentClientRect this = None ->
     fakeTouchFinger this = None ->
     isVideoReady (videoPlayer this) = true ->
     TouchEvent.target e = Some (getVideoElement (videoPlayer this)) ->
     TouchEvent.changedTouches e = first :: others ->
     onTouchStart e this = mkOutcome (Throw ReadOfUndefinedRect) this []
     /\ onTouchStart e this <> ignored this).
Proof.
  split.
  - intros before rect after Hquiet.
    rewrite outcomes_app, forallb_app. apply andb_true_intro. split.
    + now apply guarded_out_never_fails.
    + cbn [outcomes forallb]. apply andb_true_intro. split; [reflexivity|].
      now apply cached_rect_never_fails with rect.
  - intros this e first others Hrect Hf Hready Htarget Hchanged.
    rewrite (onTouchStart_idle_unset_rect this e first others) by trivial.
    split; [reflexivity | discriminate].
Qed.

(** C8. With the rectangle cached at left 10, top 20 and the video ready,
    touch-start at client (110,120), touch-move of the same identifier to
    (160,170) and touch-end of it there, all on the video element, send
    [MouseDown] at the unsigned normalisation of (100,100), [MouseMove] at
    that of (150,150) with the signed normalisation of (50,50) as delta,
    and [MouseUp] at that of (150,150), in this order and nothing else;
    every handler completes normally and no finger is tracked at the end. *)
Theorem scenario_down_move_up (id : Z) (video parent : Element)
  (cc : CoordinateConverter) :
  let this0 :=
    with_rect (DOMRect.mk 10 20) (constructor (mkVideoPlayer true video parent) cc) in
  let down := Touch.mk id 110 120 in
  let moved := Touch.mk id 160 170 in
  let inputs :=
    [TouchStart (TouchEvent.mk (Some video) [down] [down]);
     TouchMove (TouchEvent.mk (Some video) [moved] [moved]);
     TouchEnd (TouchEvent.mk (Some video) [moved] [])] in
  let u100 := normalizeAndQuantizeUnsigned cc 100 100 in
  let u150 := normalizeAndQuantizeUnsigned cc 150 150 in
  let d50 := normalizeAndQuantizeSigned cc 50 50 in
  messages (concat (map effects (outcomes this0 inputs))) =
    [SendMessage MouseDown [mainButton; Coord.x u100; Coord.y u100];
     SendMessage MouseMove [Coord.x u150; Coord.y u150; Coord.x d50; Coord.y d50];
     SendMessage MouseUp [mainButton; Coord.x u150; Coord.y u150]]
  /\ map completion (outcomes this0 inputs) = [Normal tt; Normal tt; Normal tt]
  /\ fakeTouchFinger (run this0 inputs) = None.
Proof.
  intros this0 down moved inputs u100 u150 d50.
  assert (outcomes this0 inputs =
          [mkOutcome (Normal tt)
             (with_fakeTouchFinger (Some (FakeTouchFinger.mk id 100 100)) this0)
             [DispatchEvent parent mouseenter down;
              SendMessage MouseDown [mainButton; Coord.x u100; Coord.y u100];
              PreventDefault];
           mkOutcome (Normal tt)
             (with_fakeTouchFinger (Some (FakeTouchFinger.mk id 150 150)) this0)
             [SendMessage MouseMove
                [Coord.x u150; Coord.y u150; Coord.x d50; Coord.y d50];
              PreventDefault];
           mkOutcome (Normal tt) this0
             [SendMessage MouseUp [mainButton; Coord.x u150; Coord.y u150];
              DispatchEvent parent mouseleave moved;
              PreventDefault]]) as Hout.
  { unfold inputs. cbn [outcomes deliver].
    rewrite (onTouchStart_idle_outcome this0 _ down [] (DOMRect.mk 10 20))
      by reflexivity.
    cbn [this_after].
    rewrite (onTouchMove_match_outcome _ (FakeTouchFinger.mk id 100 100)
               (DOMRect.mk 10 20) _ [] moved []) by (reflexivity || contradiction).
    cbn [this_after].
    rewrite (onTouchEnd_match_outcome _ (FakeTouchFinger.mk id 150 150)
               (DOMRect.mk 10 20) _ [] moved []) by (reflexivity || contradiction).
    reflexivity. }
  split; [|split].
  - rewrite Hout. reflexivity.
  - rewrite Hout. reflexivity.
  - rewrite run_last_outcome, Hout. reflexivity.
Qed.

End Properties.

(** * Further properties of the handlers *)

Section MoreProperties.

Variable mainButton : float.

Local Abbreviation onTouchStart := (onTouchStart mainButton).
Local Abbreviation onTouchEnd := (onTouchEnd mainButton).
Local Abbreviation deliver := (deliver mainButton).
Local Abbreviation run := (run mainButton).
Local Abbreviation outcomes := (outcomes mainButton).




(** What a handler leaves alone. *)
Lemma deliver_touch_frame this i :
  (forall rect, i <> SetRect rect) ->
  (forall vp cc, i <> Collaborators vp cc) ->
  videoElementParentClientRect (this_after (deliver i this))
  = videoElementParentClientRect this
  /\ videoPlayer (this_after (deliver i this)) = videoPlayer this
  /\ coordinateConverter (this_after (deliver i this)) = coordinateConverter this.
Proof.
  intros Hrect Hcoll.
  destruct i as [rect | e | e | e | vp cc]; unfold deliver.
  - now destruct (Hrect rect).
  - destruct (onTouchStart_cases mainButton this e); now repeat split.
  - destruct (onTouchEnd_cases mainButton this e); now repeat split.
  - destruct (onTouchMove_cases this e); now repeat split.
  - now destruct (Hcoll vp cc).
Qed.

(** X4. Touch events never change what was installed: after any run the
    cached rectangle is the one of the last setter call (the initial one
    if there was none), and the video player and converter are the ones
    last installed. *)
Theorem run_keeps_what_was_installed this inputs :
  videoElementParentClientRect (run this inputs)
  = lastRect inputs (videoElementParentClientRect this)
  /\ (videoPlayer (run this inputs), coordinateConverter (run this inputs))
     = lastCollaborators inputs (videoPlayer this, coordinateConverter this).
Proof.
  revert this. induction inputs as [|i inputs IH]; intros this; [now split|].
  cbn [run]. destruct (IH (this_after (deliver i this))) as [IHr IHc].
  rewrite IHr, IHc.
  destruct i as [rect | e | e | e | vp cc]; cbn [lastRect lastCollaborators];
    try (destruct (deliver_touch_frame this (TouchStart e)) as (-> & -> & ->);
         [discriminate | discriminate | now split]);
    try (destruct (deliver_touch_frame this (TouchEnd e)) as (-> & -> & ->);
         [discriminate | discriminate | now split]);
    try (destruct (deliver_touch_frame this (TouchMove e)) as (-> & -> & ->);
         [discriminate | discriminate | now split]);
    now split.
Qed.




(** X6. One touch event gives rise to at most one message, at most one
    hover event and at most one [preventDefault]; and whenever it sends a
    message it also suppresses the default behaviour. *)
Theorem one_event_one_message this i :
  (length (messages (effects (deliver i this))) <= 1)%nat
  /\ (length (hoverEvents (effects (deliver i this))) <= 1)%nat
  /\ (suppressions (effects (deliver i this)) <= 1)%nat
  /\ (messages (effects (deliver i this)) <> [] ->
      suppressions (effects (deliver i this)) = 1%nat).
Proof.
  destruct i as [rect | e | e | e | vp cc]; unfold deliver.
  - cbn. repeat split; auto. intros Hsent. now destruct Hsent.
  - destruct (onTouchStart_cases mainButton this e); cbn; repeat split; auto;
      intros Hsent; now destruct Hsent.
  - destruct (onTouchEnd_cases mainButton this e); cbn; repeat split; auto;
      intros Hsent; now destruct Hsent.
  - destruct (onTouchMove_cases this e); cbn; repeat split; auto;
      intros Hsent; now destruct Hsent.
  - cbn. repeat split; auto. intros Hsent. now destruct Hsent.
Qed.

(** X7. [preventDefault] is called exactly when the event passes its
    handler's guard and the handler does not throw: once then, and not at
    all otherwise. *)
Theorem suppression_iff_guard_passed this i :
  suppressions (effects (deliver i this))
  = if passesGuard this i && isNormal (completion (deliver i this))
    then 1%nat else 0%nat.
Proof.
  destruct i as [rect | e | e | e | vp cc]; unfold deliver, passesGuard;
    try reflexivity.
  - destruct (onTouchStart_cases mainButton this e) as
      [[Hg | Hg] | finger Hr Ht Hf | Hr Ht Hf Hc | first others Hr Ht Hf Hc Hrect
       | first others rect Hr Ht Hf Hc Hrect]; cbn.
    + now rewrite Hg.
    + now rewrite (target_strictEq_other _ _ Hg), andb_false_r.
    + now rewrite Hr, Ht, target_strictEq_same.
    + now rewrite andb_false_r.
    + now rewrite andb_false_r.
    + now rewrite Hr, Ht, target_strictEq_same.
  - destruct (onTouchEnd_cases mainButton this e) as
      [[Hg | Hg] | finger Hr Hf Hno | finger before t later Hr Hf Hs Hb Ht Hrect
       | finger before t later rect Hr Hf Hs Hb Ht Hrect]; cbn.
    + now rewrite Hg.
    + now rewrite Hg, andb_false_r.
    + now rewrite Hr, Hf.
    + now rewrite andb_false_r.
    + now rewrite Hr, Hf.
  - destruct (onTouchMove_cases this e) as
      [[Hg | Hg] | finger Hr Hf Hno | finger before t later Hr Hf Hs Hb Ht Hrect
       | finger before t later rect Hr Hf Hs Hb Ht Hrect]; cbn.
    + now rewrite Hg.
    + now rewrite Hg, andb_false_r.
    + now rewrite Hr, Hf.
    + now rewrite andb_false_r.
    + now rewrite Hr, Hf.
Qed.

Lemma messages_app log later :
  messages (log ++ later) = messages log ++ messages later.
Proof. apply filter_app. Qed.

Lemma hoverEvents_app log later :
  hoverEvents (log ++ later) = hoverEvents log ++ hoverEvents later.
Proof. apply filter_app. Qed.

(** One input that is not the tracked finger's touch-end. *)
Lemma stuck_step this i f :
  fakeTouchFinger this = Some f ->
  (forall e t, i = TouchEnd e -> In t (TouchEvent.changedTouches e) ->
               Touch.identifier t <> FakeTouchFinger.id f) ->
  (exists f', fakeTouchFinger (this_after (deliver i this)) = Some f'
              /\ FakeTouchFinger.id f' = FakeTouchFinger.id f)
  /\ Forall (fun m => isMouseMove m = true) (messages (effects (deliver i this)))
  /\ hoverEvents (effects (deliver i this)) = [].
Proof.
  intros Hf0 Hend.
  destruct i as [rect | e | e | e | vp cc]; unfold deliver.
  - cbn. split; [now exists f | now split].
  - destruct (onTouchStart_cases mainButton this e) as
      [Hg | finger Hr Ht Hf | Hr Ht Hf Hc | first others Hr Ht Hf Hc Hrect
       | first others rect Hr Ht Hf Hc Hrect]; try congruence;
      cbn; (split; [now exists f | now split]).
  - destruct (onTouchEnd_cases mainButton this e) as
      [Hg | finger Hr Hf Hno | finger before t later Hr Hf Hs Hb Ht Hrect
       | finger before t later rect Hr Hf Hs Hb Ht Hrect];
      try (cbn; split; [now exists f | now split]).
    exfalso. apply (Hend e t eq_refl).
    + rewrite Hs. apply in_or_app. right. now left.
    + congruence.
  - destruct (onTouchMove_cases this e) as
      [Hg | finger Hr Hf Hno | finger before t later Hr Hf Hs Hb Ht Hrect
       | finger before t later rect Hr Hf Hs Hb Ht Hrect];
      try (cbn; split; [now exists f | now split]).
    cbn. split; [|split; [now repeat constructor | reflexivity]].
    eexists. split; [reflexivity|]. cbn. congruence.
  - cbn. split; [now exists f | now split].
Qed.

(** X8. A lost touch-end blocks the controller: while no touch-end
    carries a changed touch with the tracked finger's id, that id stays
    tracked whatever else arrives, every message sent is a [MouseMove]
    (no [MouseUp], no new [MouseDown]) and no hover event is
    dispatched. *)
Theorem lost_touch_end_blocks_the_controller this inputs f :
  fakeTouchFinger this = Some f ->
  (forall e t, In (TouchEnd e) inputs -> In t (TouchEvent.changedTouches e) ->
               Touch.identifier t <> FakeTouchFinger.id f) ->
  (exists f', fakeTouchFinger (run this inputs) = Some f'
              /\ FakeTouchFinger.id f' = FakeTouchFinger.id f)
  /\ Forall (fun m => isMouseMove m = true)
       (messages (concat (map effects (outcomes this inputs))))
  /\ hoverEvents (concat (map effects (outcomes this inputs))) = [].
Proof.
  revert this f. induction inputs as [|i inputs IH]; intros this f Hf Hend.
  - cbn. split; [now exists f | now split].
  - cbn [run outcomes map concat].
    destruct (stuck_step this i f Hf) as ((f1 & Hf1 & Hid1) & Hmsg & Hhover).
    { intros e t -> Ht. apply (Hend e t); [now left | exact Ht]. }
    destruct (IH (this_after (deliver i this)) f1 Hf1)
      as ((f2 & Hf2 & Hid2) & Hmsgs & Hhovers).
    { intros e t He Ht. rewrite Hid1. apply (Hend e t); [now right | exact Ht]. }
    split; [exists f2; split; [exact Hf2 | congruence]|].
    rewrite messages_app, hoverEvents_app, Hhover, Hhovers.
    split; [now apply Forall_app | reflexivity].
Qed.

Lemma find_first_match id l t :
  find (matching id) l = Some t ->
  exists before later,
    l = before ++ t :: later
    /\ (forall t', In t' before -> Touch.identifier t' <> id)
    /\ Touch.identifier t = id.
Proof.
  induction l as [|a l IH]; [discriminate|]. cbn.
  destruct (matching id a) eqn:E.
  - intros H. injection H as <-. exists [], l. repeat split.
    + now intros t' [].
    + now apply matching_iff.
  - intros H. destruct (IH H) as (before & later & -> & Hb & Ht).
    exists (a :: before), later. repeat split; trivial.
    intros t' [<- | Hin]; [now apply matching_false_iff | now apply Hb].
Qed.

(** X9. Deltas chain: of two touch-moves of the tracked finger delivered
    one after the other, the first measures its delta from the stored
    position and the second from the position the first one stored; each
    takes the first touch of its list that has the tracked id. *)
Theorem consecutive_moves_chain this finger rect e1 e2 t1 t2 :
  fakeTouchFinger this = Some finger ->
  isVideoReady (videoPlayer this) = true ->
  videoElementParentClientRect this = Some rect ->
  find (matching (FakeTouchFinger.id finger)) (TouchEvent.touches e1) = Some t1 ->
  find (matching (FakeTouchFinger.id finger)) (TouchEvent.touches e2) = Some t2 ->
  let x1 := PrimFloat.sub (Touch.clientX t1) (DOMRect.left rect) in
  let y1 := PrimFloat.sub (Touch.clientY t1) (DOMRect.top rect) in
  let x2 := PrimFloat.sub (Touch.clientX t2) (DOMRect.left rect) in
  let y2 := PrimFloat.sub (Touch.clientY t2) (DOMRect.top rect) in
  let cc := coordinateConverter this in
  let u1 := normalizeAndQuantizeUnsigned cc x1 y1 in
  let u2 := normalizeAndQuantizeUnsigned cc x2 y2 in
  let d1 :=
    normalizeAndQuantizeSigned cc
      (PrimFloat.sub x1 (FakeTouchFinger.x finger))
      (PrimFloat.sub y1 (FakeTouchFinger.y finger)) in
  let d2 :=
    normalizeAndQuantizeSigned cc (PrimFloat.sub x2 x1) (PrimFloat.sub y2 y1) in
  map effects (outcomes this [TouchMove e1; TouchMove e2])
  = [[SendMessage MouseMove [Coord.x u1; Coord.y u1; Coord.x d1; Coord.y d1];
      PreventDefault];
     [SendMessage MouseMove [Coord.x u2; Coord.y u2; Coord.x d2; Coord.y d2];
      PreventDefault]]
  /\ fakeTouchFinger (run this [TouchMove e1; TouchMove e2])
     = Some (FakeTouchFinger.mk (FakeTouchFinger.id finger) x2 y2).
Proof.
  intros Hf Hready Hrect Hfind1 Hfind2.
  destruct (find_first_match _ _ _ Hfind1) as (b1 & l1 & Hs1 & Hb1 & Ht1).
  destruct (find_first_match _ _ _ Hfind2) as (b2 & l2 & Hs2 & Hb2 & Ht2).
  cbn [outcomes run deliver map].
  rewrite (onTouchMove_match_outcome this finger rect e1 b1 t1 l1) by trivial.
  cbn [this_after effects].
  rewrite (onTouchMove_match_outcome _
             (FakeTouchFinger.mk (FakeTouchFinger.id finger)
                (PrimFloat.sub (Touch.clientX t1) (DOMRect.left rect))
                (PrimFloat.sub (Touch.clientY t1) (DOMRect.top rect)))
             rect e2 b2 t2 l2) by trivial.
  now split.
Qed.

(** ** Listener lifecycle *)

Lemma FunctionObject_eqb_neq f g :
  address_of f <> address_of g -> FunctionObject_eqb f g = false.
Proof. intros H. unfold FunctionObject_eqb. now apply N.eqb_neq. Qed.

Lemma sameListener_other_address type f entry :
  address_of f <> address_of (snd entry) -> sameListener type f entry = false.
Proof.
  intros H. unfold sameListener.
  now rewrite (FunctionObject_eqb_neq _ _ H), andb_false_r.
Qed.

Lemma existsb_sameListener_absent type f listeners :
  (forall entry, In entry listeners -> address_of f <> address_of (snd entry)) ->
  existsb (sameListener type f) listeners = false.
Proof.
  induction listeners as [|a l IH]; intros H; [reflexivity|].
  cbn. rewrite sameListener_other_address by (apply H; now left).
  apply IH. intros entry Hin. apply H. now right.
Qed.

Lemma addEventListener_fresh type f listeners :
  (forall entry, In entry listeners -> address_of f <> address_of (snd entry)) ->
  addEventListener type f listeners = listeners ++ [(type, f)].
Proof.
  intros H. unfold addEventListener.
  now rewrite existsb_sameListener_absent.
Qed.

Lemma removeEventListener_skip type f before listeners :
  (forall entry, In entry before -> address_of f <> address_of (snd entry)) ->
  removeEventListener type f (before ++ listeners)
  = before ++ removeEventListener type f listeners.
Proof.
  induction before as [|a l IH]; intros H; [reflexivity|].
  cbn. rewrite sameListener_other_address by (apply H; now left).
  f_equal. apply IH. intros entry Hin. apply H. now right.
Qed.

Lemma sameListener_refl type f : sameListener type f (type, f) = true.
Proof.
  unfold sameListener, FunctionObject_eqb. cbn.
  rewrite N.eqb_refl. now destruct type.
Qed.

(** On a page whose registered callbacks all exist already, the
    constructor appends its three listeners after the ones there. *)
Lemma newTouchControllerFake_listeners vp cc page :
  registeredExist page ->
  documentListeners (snd (newTouchControllerFake vp cc page))
  = documentListeners page
    ++ [(touchstart, FunctionAt (functionsCreated page));
        (touchend, FunctionAt (functionsCreated page + 1));
        (touchmove, FunctionAt (functionsCreated page + 2))].
Proof.
  intros Hexist. cbn [newTouchControllerFake snd documentListeners].
  rewrite (addEventListener_fresh touchstart _ (documentListeners page)).
  2:{ intros entry Hin. apply Hexist in Hin. cbn. lia. }
  rewrite (addEventListener_fresh touchend).
  2:{ intros entry Hin. apply in_app_or in Hin as [Hin | [<- | []]].
      - apply Hexist in Hin. cbn. lia.
      - cbn. lia. }
  rewrite (addEventListener_fresh touchmove).
  2:{ intros entry Hin.
      apply in_app_or in Hin as [Hin | [<- | []]]; [|cbn; lia].
      apply in_app_or in Hin as [Hin | [<- | []]]; [|cbn; lia].
      apply Hexist in Hin. cbn. lia. }
  now rewrite <- !app_assoc.
Qed.



Lemma unregister_after_new vp cc page :
  registeredExist page ->
  unregisterTouchEvents (snd (fst (newTouchControllerFake vp cc page)))
    (snd (newTouchControllerFake vp cc page))
  = mkPage (documentListeners page) (functionsCreated page + 3).
Proof.
  intros Hexist. unfold unregisterTouchEvents.
  rewrite newTouchControllerFake_listeners by trivial.
  cbn [newTouchControllerFake fst snd onTouchStartListener onTouchEndListener
         onTouchMoveListener functionsCreated].
  rewrite removeEventListener_skip
    by (intros entry Hin; apply Hexist in Hin; cbn; lia).
  cbn [removeEventListener]. rewrite sameListener_refl.
  rewrite removeEventListener_skip
    by (intros entry Hin; apply Hexist in Hin; cbn; lia).
  cbn [removeEventListener]. rewrite sameListener_refl.
  rewrite removeEventListener_skip
    by (intros entry Hin; apply Hexist in Hin; cbn; lia).
  cbn [removeEventListener]. rewrite sameListener_refl.
  now rewrite app_nil_r.
Qed.

(** X10. Construction followed by [unregisterTouchEvents] is a round trip
    on the document: the listener list is again what it was before the
    constructor ran, other listeners included and in their order. *)
Theorem unregister_undoes_registration vp cc page :
  registeredExist page ->
  documentListeners
    (unregisterTouchEvents (snd (fst (newTouchControllerFake vp cc page)))
       (snd (newTouchControllerFake vp cc page)))
  = documentListeners page.
Proof.
  intros Hexist. now rewrite unregister_after_new.
Qed.







(** X14. Whatever a handler sends has the shape of its kind: a
    [MouseDown] or [MouseUp] carries [mainButton] and two coordinates, a
    [MouseMove] four numbers, and a hover event is dispatched on the
    video's parent element. *)
Theorem effects_are_well_shaped this i m :
  In m (effects (deliver i this)) ->
  match m with
  | SendMessage MouseDown payload | SendMessage MouseUp payload =>
      exists x y, payload = [mainButton; x; y]
  | SendMessage MouseMove payload => length payload = 4%nat
  | DispatchEvent on _ _ => on = getVideoParentElement (videoPlayer this)
  | PreventDefault => True
  end.
Proof.
  destruct i as [rect | e | e | e | vp cc]; unfold deliver.
  - intros [].
  - destruct (onTouchStart_cases mainButton this e); cbn;
      intros Hin; repeat (destruct Hin as [<- | Hin]); try contradiction;
      trivial; now eexists _, _.
  - destruct (onTouchEnd_cases mainButton this e); cbn;
      intros Hin; repeat (destruct Hin as [<- | Hin]); try contradiction;
      trivial; now eexists _, _.
  - destruct (onTouchMove_cases this e); cbn;
      intros Hin; repeat (destruct Hin as [<- | Hin]); try contradiction;
      trivial.
  - intros [].
Qed.

End MoreProperties.

(** * The theorems at the sample configuration *)

Module Instances.

Import Sample.

(** C1 fails as stated where no rectangle was ever cached: on a freshly
    constructed controller a qualifying touch-start throws out of the
    coordinate computation, tracks nothing and sends no [MouseDown]. *)
Lemma onTouchStart_fresh_controller_throws :
  fakeTouchFinger (constructor (player true) converter) = None
  /\ isVideoReady (videoPlayer (constructor (player true) converter)) = true
  /\ TouchEvent.target (eventOn video down)
     = Some (getVideoElement (videoPlayer (constructor (player true) converter)))
  /\ TouchEvent.changedTouches (eventOn video down) = [down]
  /\ onTouchStart mainButton (eventOn video down) (constructor (player true) converter)
     = mkOutcome (Throw ReadOfUndefinedRect) (constructor (player true) converter) []
  /\ fakeTouchFinger
       (this_after
          (onTouchStart mainButton (eventOn video down)
             (constructor (player true) converter))) = None
  /\ messages
       (effects
          (onTouchStart mainButton (eventOn video down)
             (constructor (player true) converter))) = [].
Proof. repeat split. Qed.

Lemma onTouchStart_idle_starts_tracking_witness :
  (fakeTouchFinger (idle true) = None
   /\ isVideoReady (videoPlayer (idle true)) = true
   /\ TouchEvent.target (eventOn video down)
      = Some (getVideoElement (videoPlayer (idle true)))
   /\ TouchEvent.changedTouches (eventOn video down) = [down]
   /\ videoElementParentClientRect (idle true) = Some rect)
  /\ onTouchStart mainButton (eventOn video down) (idle true)
     = mkOutcome (Normal tt) (tracking true)
         [DispatchEvent parent mouseenter down;
          SendMessage MouseDown [mainButton; 100%float; 100%float];
          PreventDefault].
Proof.
  split; [repeat split|].
  exact (onTouchStart_idle_starts_tracking mainButton (idle true)
           (eventOn video down) down [] rect
           eq_refl eq_refl eq_refl eq_refl eq_refl).
Defined.

(** The state [scriptUnready] leads to: finger 7 tracked, rectangle
    cached, video not ready. *)
Lemma scriptUnready_reaches_tracking :
  run mainButton (constructor (player true) converter) scriptUnready = tracking false.
Proof. reflexivity. Qed.

(** C2 fails as stated where the video is not ready: in a reachable state
    that tracks finger 7, a touch-move carrying finger 7 sends no
    [MouseMove] and leaves the stored position at (100,100). *)
Lemma onTouchMove_not_ready_sends_nothing :
  fakeTouchFinger
    (run mainButton (constructor (player true) converter) scriptUnready)
  = Some finger7
  /\ In moved (TouchEvent.touches (eventOn video moved))
  /\ Touch.identifier moved = FakeTouchFinger.id finger7
  /\ messages
       (effects
          (onTouchMove (eventOn video moved)
             (run mainButton (constructor (player true) converter) scriptUnready)))
     = []
  /\ fakeTouchFinger
       (this_after
          (onTouchMove (eventOn video moved)
             (run mainButton (constructor (player true) converter) scriptUnready)))
     = Some finger7.
Proof. repeat split. now left. Qed.

Lemma onTouchMove_tracking_ready_moves_witness :
  fakeTouchFinger (run mainButton (constructor (player true) converter) script)
  = Some finger7
  /\ isVideoReady
       (videoPlayer (run mainButton (constructor (player true) converter) script))
     = true
  /\ onTouchMove (eventOn video moved)
       (run mainButton (constructor (player true) converter) script)
     = mkOutcome (Normal tt)
         (with_fakeTouchFinger
            (Some (FakeTouchFinger.mk 7 150%float 150%float)) (idle true))
         [SendMessage MouseMove [150%float; 150%float; 50%float; 50%float];
          PreventDefault]
  /\ onTouchMove (eventOn video stray)
       (run mainButton (constructor (player true) converter) script)
     = mkOutcome (Normal tt) (tracking true) [PreventDefault].
Proof.
  split; [reflexivity|]. split; [reflexivity|].
  destruct (onTouchMove_tracking_ready_moves mainButton (player true) converter
              script finger7 (eventOn video moved) eq_refl eq_refl)
    as (r & Hr & _ & Hmatch).
  destruct (onTouchMove_tracking_ready_moves mainButton (player true) converter
              script finger7 (eventOn video stray) eq_refl eq_refl)
    as (_ & _ & Hnone & _).
  injection Hr as <-. split.
  - exact (Hmatch [] moved [] eq_refl (fun _ F => False_ind _ F) eq_refl).
  - apply Hnone. intros t [<- | []]. discriminate.
Defined.

(** C3 fails as stated where the video is not ready: in a reachable state
    that tracks finger 7, a touch-end carrying finger 7 sends no
    [MouseUp], dispatches no [mouseleave] and leaves finger 7 tracked. *)
Lemma onTouchEnd_not_ready_keeps_finger :
  fakeTouchFinger
    (run mainButton (constructor (player true) converter) scriptUnready)
  = Some finger7
  /\ In moved (TouchEvent.changedTouches (eventOn video moved))
  /\ Touch.identifier moved = FakeTouchFinger.id finger7
  /\ effects
       (onTouchEnd mainButton (eventOn video moved)
          (run mainButton (constructor (player true) converter) scriptUnready))
     = []
  /\ fakeTouchFinger
       (this_after
          (onTouchEnd mainButton (eventOn video moved)
             (run mainButton (constructor (player true) converter) scriptUnready)))
     = Some finger7.
Proof. repeat split. now left. Qed.

Lemma onTouchEnd_tracking_ready_releases_witness :
  fakeTouchFinger (run mainButton (constructor (player true) converter) script)
  = Some finger7
  /\ isVideoReady
       (videoPlayer (run mainButton (constructor (player true) converter) script))
     = true
  /\ onTouchEnd mainButton (TouchEvent.mk (Some video) [stray; moved; down] [])
       (run mainButton (constructor (player true) converter) script)
     = mkOutcome (Normal tt) (idle true)
         [SendMessage MouseUp [mainButton; 150%float; 150%float];
          DispatchEvent parent mouseleave moved;
          PreventDefault]
  /\ onTouchEnd mainButton (eventOn video stray)
       (run mainButton (constructor (player true) converter) script)
     = mkOutcome (Normal tt) (tracking true) [PreventDefault].
Proof.
  split; [reflexivity|]. split; [reflexivity|].
  destruct (onTouchEnd_tracking_ready_releases mainButton (player true) converter
              script finger7 (TouchEvent.mk (Some video) [stray; moved; down] [])
              eq_refl eq_refl)
    as (r & Hr & Hmatch & _).
  destruct (onTouchEnd_tracking_ready_releases mainButton (player true) converter
              script finger7 (eventOn video stray) eq_refl eq_refl)
    as (_ & _ & _ & Hnone).
  injection Hr as <-. split.
  - refine (proj1 (Hmatch [stray] moved [down] eq_refl _ eq_refl)).
    intros t [<- | []]. discriminate.
  - apply Hnone. intros t [<- | []]. discriminate.
Defined.

(** C4 fails as stated where the video is not ready: in a reachable state
    that tracks finger 7, neither a touch-move nor a touch-end calls
    [preventDefault]. *)
Lemma tracking_not_ready_without_suppression :
  fakeTouchFinger
    (run mainButton (constructor (player true) converter) scriptUnready)
  = Some finger7
  /\ suppressions
       (effects
          (onTouchMove (eventOn video moved)
             (run mainButton (constructor (player true) converter) scriptUnready)))
     = 0%nat
  /\ suppressions
       (effects
          (onTouchEnd mainButton (eventOn video moved)
             (run mainButton (constructor (player true) converter) scriptUnready)))
     = 0%nat.
Proof. repeat split. Qed.

Lemma tracking_ready_suppresses_default_witness :
  fakeTouchFinger (run mainButton (constructor (player true) converter) script)
  = Some finger7
  /\ isVideoReady
       (videoPlayer (run mainButton (constructor (player true) converter) script))
     = true
  /\ suppressions
       (effects
          (onTouchMove (eventOn video stray)
             (run mainButton (constructor (player true) converter) script)))
     = 1%nat
  /\ suppressions
       (effects
          (onTouchEnd mainButton (eventOn video moved)
             (run mainButton (constructor (player true) converter) script)))
     = 1%nat.
Proof.
  split; [reflexivity|]. split; [reflexivity|]. split.
  - exact (proj2 (proj1 (tracking_ready_suppresses_default mainButton
                           (player true) converter script finger7
                           (eventOn video stray) eq_refl eq_refl))).
  - exact (proj2 (proj2 (tracking_ready_suppresses_default mainButton
                           (player true) converter script finger7
                           (eventOn video moved) eq_refl eq_refl))).
Defined.

Lemma onTouchStart_while_tracking_swallowed_witness :
  (fakeTouchFinger (tracking true) = Some finger7
   /\ isVideoReady (videoPlayer (tracking true)) = true
   /\ TouchEvent.target (eventOn video stray)
      = Some (getVideoElement (videoPlayer (tracking true))))
  /\ onTouchStart mainButton (eventOn video stray) (tracking true)
     = mkOutcome (Normal tt) (tracking true) [PreventDefault].
Proof.
  split; [repeat split|].
  exact (onTouchStart_while_tracking_swallowed mainButton (tracking true)
           (eventOn video stray) finger7 eq_refl eq_refl eq_refl).
Defined.

Lemma idle_guarded_out_events_are_noops_witness :
  fakeTouchFinger (idle true) = None
  /\ outcomes mainButton (idle true)
       (map TouchStart [eventOn elsewhere down; eventOn parent moved])
     = [ignored (idle true); ignored (idle true)]
  /\ onTouchMove (eventOn video moved) (idle true) = ignored (idle true)
  /\ onTouchEnd mainButton (eventOn video moved) (idle true) = ignored (idle true).
Proof.
  split; [reflexivity|].
  destruct (idle_guarded_out_events_are_noops mainButton (idle true) eq_refl)
    as (Hstarts & Hmove & Hend).
  split; [|split].
  - refine (proj1 (Hstarts [eventOn elsewhere down; eventOn parent moved] _)).
    intros e [<- | [<- | []]]; right; discriminate.
  - exact (Hmove (eventOn video moved)).
  - exact (Hend (eventOn video moved)).
Defined.

Lemma not_ready_ignores_move_and_end_witness :
  (fakeTouchFinger (tracking false) = Some finger7
   /\ isVideoReady (videoPlayer (tracking false)) = false)
  /\ onTouchMove (eventOn video moved) (tracking false) = ignored (tracking false)
  /\ onTouchEnd mainButton (eventOn video moved) (tracking false)
     = ignored (tracking false)
  /\ fakeTouchFinger
       (run mainButton (tracking false)
          [TouchMove (eventOn video moved); TouchEnd (eventOn video moved)])
     = Some finger7.
Proof.
  split; [split; reflexivity|].
  destruct (not_ready_ignores_move_and_end mainButton (tracking false) finger7
              eq_refl eq_refl) as (Hmove & Hend & Hseq).
  split; [exact (Hmove _)|]. split; [exact (Hend _)|].
  refine (proj2 (Hseq [TouchMove (eventOn video moved);
                       TouchEnd (eventOn video moved)] _)).
  intros i [<- | [<- | []]]; eexists; [left | right]; reflexivity.
Defined.

Lemma tracked_finger_id_is_stable_witness :
  fakeTouchFinger
    (run mainButton (constructor (player true) converter)
       (script ++ [TouchMove (eventOn video moved)]))
  = Some (FakeTouchFinger.mk 7 150%float 150%float)
  /\ exists before e first others after,
       script ++ [TouchMove (eventOn video moved)] = before ++ TouchStart e :: after
       /\ fakeTouchFinger (run mainButton (constructor (player true) converter) before)
          = None
       /\ TouchEvent.changedTouches e = first :: others
       /\ Touch.identifier first = 7.
Proof.
  split; [reflexivity|].
  destruct (proj1 (tracked_finger_id_is_stable mainButton (player true) converter
                     (script ++ [TouchMove (eventOn video moved)]))
              (FakeTouchFinger.mk 7 150%float 150%float) eq_refl)
    as (before & e & first & others & after & H1 & H2 & H3 & H4 & _).
  now exists before, e, first, others, after.
Defined.

Lemma rect_read_safety_witness :
  allGuardedOut mainButton (constructor (player false) converter)
    [TouchStart (eventOn video down); TouchEnd (eventOn video down)] = true
  /\ forallb (fun o => negb (throwsRectRead o))
       (outcomes mainButton (constructor (player false) converter)
          ([TouchStart (eventOn video down); TouchEnd (eventOn video down)]
           ++ SetRect rect
              :: [Collaborators (player true) converter;
                  TouchStart (eventOn video down);
                  TouchMove (eventOn video moved);
                  TouchEnd (eventOn video moved)])) = true
  /\ onTouchStart mainButton (eventOn video down) (constructor (player true) converter)
     = mkOutcome (Throw ReadOfUndefinedRect) (constructor (player true) converter) [].
Proof.
  split; [reflexivity|].
  destruct (rect_read_safety mainButton (player false) converter) as (Hsafe & _).
  destruct (rect_read_safety mainButton (player true) converter) as (_ & Hthrows).
  split.
  - exact (Hsafe [TouchStart (eventOn video down); TouchEnd (eventOn video down)]
             rect _ eq_refl).
  - exact (proj1 (Hthrows (constructor (player true) converter)
                    (eventOn video down) down [] eq_refl eq_refl eq_refl eq_refl
                    eq_refl)).
Defined.

End Instances.

(** * The further properties at the sample configuration *)

Module MoreInstances.

Import Sample.



Lemma lost_touch_end_blocks_the_controller_witness :
  fakeTouchFinger (tracking true) = Some finger7
  /\ (exists f',
        fakeTouchFinger
          (run mainButton (tracking true)
             [TouchEnd (eventOn video stray);
              TouchStart (eventOn video stray);
              TouchMove (eventOn video moved)])
        = Some f'
        /\ FakeTouchFinger.id f' = 7)
  /\ hoverEvents
       (concat
          (map effects
             (outcomes mainButton (tracking true)
                [TouchEnd (eventOn video stray);
                 TouchStart (eventOn video stray);
                 TouchMove (eventOn video moved)])))
     = [].
Proof.
  split; [reflexivity|].
  assert (forall e t,
            In (TouchEnd e)
              [TouchEnd (eventOn video stray);
               TouchStart (eventOn video stray);
               TouchMove (eventOn video moved)] ->
            In t (TouchEvent.changedTouches e) ->
            Touch.identifier t <> FakeTouchFinger.id finger7) as H.
  { intros e t [He | [He | [He | []]]]; try discriminate.
    injection He as <-. intros [<- | []]. discriminate. }
  destruct (lost_touch_end_blocks_the_controller mainButton (tracking true)
              [TouchEnd (eventOn video stray);
               TouchStart (eventOn video stray);
               TouchMove (eventOn video moved)] finger7 eq_refl H)
    as (Hkept & _ & Hhover).
  split; [exact Hkept | exact Hhover].
Defined.

Lemma consecutive_moves_chain_witness :
  (fakeTouchFinger (tracking true) = Some finger7
   /\ isVideoReady (videoPlayer (tracking true)) = true
   /\ videoElementParentClientRect (tracking true) = Some rect
   /\ find (matching 7) [stray; moved] = Some moved
   /\ find (matching 7) [down; moved] = Some down)
  /\ map effects
       (outcomes mainButton (tracking true)
          [TouchMove (TouchEvent.mk None [] [stray; moved]);
           TouchMove (TouchEvent.mk None [] [down; moved])])
     = [[SendMessage MouseMove [150%float; 150%float; 50%float; 50%float];
         PreventDefault];
        [SendMessage MouseMove [100%float; 100%float; (-50)%float; (-50)%float];
         PreventDefault]].
Proof.
  split; [repeat split|].
  exact (proj1 (consecutive_moves_chain mainButton (tracking true) finger7 rect
                  (TouchEvent.mk None [] [stray; moved])
                  (TouchEvent.mk None [] [down; moved]) moved down
                  eq_refl eq_refl eq_refl eq_refl eq_refl)).
Defined.

Lemma unregister_undoes_registration_witness :
  registeredExist SamplePage.page
  /\ documentListeners SamplePage.registered
     = [(touchstart, FunctionAt 0); (touchmove, FunctionAt 1);
        (touchstart, FunctionAt 2); (touchend, FunctionAt 3);
        (touchmove, FunctionAt 4)]
  /\ documentListeners (unregisterTouchEvents SamplePage.fields SamplePage.registered)
     = [(touchstart, FunctionAt 0); (touchmove, FunctionAt 1)].
Proof.
  assert (registeredExist SamplePage.page) as H
    by (intros entry [<- | [<- | []]]; reflexivity).
  split; [exact H|]. split; [reflexivity|].
  exact (unregister_undoes_registration (player true) converter SamplePage.page H).
Defined.




Lemma effects_are_well_shaped_witness :
  In (SendMessage MouseUp [mainButton; 150%float; 150%float])
    (effects (deliver mainButton (TouchEnd (eventOn video moved)) (tracking true)))
  /\ exists x y,
       [mainButton; 150%float; 150%float] = [mainButton; x; y].
Proof.
  assert (In (SendMessage MouseUp [mainButton; 150%float; 150%float])
            (effects
               (deliver mainButton (TouchEnd (eventOn video moved))
                  (tracking true)))) as H by (now left).
  split; [exact H|].
  exact (effects_are_well_shaped mainButton (tracking true)
           (TouchEnd (eventOn video moved))
           (SendMessage MouseUp [mainButton; 150%float; 150%float]) H).
Defined.

End MoreInstances.
